(** * Everest: configuration validation and the [everest run] entry point

    A shallow embedding of the Python sources

      - [everest/config/cvar_config.py]   (module [CVaR])
      - [everest/util/forward_models.py]  (module [ForwardModels])
      - [everest/bin/everest_script.py]   (module [Script])

    together with the objective-function validation and translation that
    [tests/test_multiobjective.py] exercises (module [Objectives]).

    Python [float]s are modelled by exact rationals ([Q]); Python [dict]s
    with string keys by [gmap string _]; exceptions by a sum type. *)

From Stdlib Require Import ZArith QArith Ascii String List DecimalString.
From stdpp Require Import base option list gmap strings fin_maps.

Local Open Scope Z_scope.
Local Open Scope string_scope.
Local Open Scope list_scope.

(** ** Python values that reach the validators *)

(** The scalars a YAML/JSON document gives to the two CVaR fields. *)
Inductive PyVal : Type :=
  | PyNone
  | PyInt (z : Z)
  | PyFloat (q : Q).

(** [v is not None] *)
Definition is_not_None (v : PyVal) : bool :=
  match v with
  | PyNone => false
  | _ => true
  end.

(** [d.get(key)]: the value stored under [key], [None] when the key is absent. *)
Definition dict_get (d : gmap string PyVal) (key : string) : PyVal :=
  default PyNone (d !! key).

(** ** Python strings *)

Definition nl : string := String (ascii_of_nat 10) "".
Definition tab : string := String (ascii_of_nat 9) "".

(** [sep.join(parts)] *)
Fixpoint join (sep : string) (parts : list string) : string :=
  match parts with
  | [] => ""
  | [p] => p
  | p :: rest => p +:+ sep +:+ join sep rest
  end.

(** [needle in hay] *)
Fixpoint contains (needle hay : string) : bool :=
  String.prefix needle hay ||
  match hay with
  | "" => false
  | String _ hay' => contains needle hay'
  end.

(** [c * n] for a one-character string. *)
Fixpoint repeat_char (c : ascii) (n : nat) : string :=
  match n with
  | O => ""
  | S n' => String c (repeat_char c n')
  end.

(** [str(x)] for an optional string: [None] prints as the word None. *)
Definition str_of_optional (o : option string) : string := default "None" o.

(** The characters [str.split()] treats as separators (ASCII range). *)
Definition is_space (c : ascii) : bool :=
  let n := nat_of_ascii c in
  ((9 <=? n) && (n <=? 13) || (28 <=? n) && (n <=? 32))%nat.

Fixpoint take_word (s : string) : string :=
  match s with
  | "" => ""
  | String c s' => if is_space c then "" else String c (take_word s')
  end.

(** [s.split()[0]]: the first whitespace-separated word, [None] when
    [s.split()] is empty (Python raises IndexError). *)
Fixpoint first_word (s : string) : option string :=
  match s with
  | "" => None
  | String c s' => if is_space c then first_word s' else Some (String c (take_word s'))
  end.

(** ** cvar_config.py *)

Module CVaR.

(** The validated model: [class CVaRConfig(BaseModel)]. *)
Record CVaRConfig : Type := mkCVaRConfig {
  number_of_realizations : option Z;
  percentile : option Q
}.

(** The kinds of error pydantic reports for this model. *)
Inductive ErrorType : Type :=
  | value_error (msg : string)        (* a ValueError raised by a validator *)
  | int_from_float                    (* a float with a fractional part for an int field *)
  | greater_than_equal (bound : Q)    (* [ge=] violated *)
  | less_than_equal (bound : Q)       (* [le=] violated *)
  | extra_forbidden.                  (* unknown key under [extra="forbid"] *)

Record ErrorDetails : Type := mkError {
  err_loc : list string;
  err_type : ErrorType
}.

Definition mutex_message : string :=
  "Invalid CVaR section; Specify only one of the following: number_of_realizations, percentile".

(** [validate_mutex_nreals_percentile], cvar_config.py lines 30-42.
    [inl msg] stands for [raise ValueError(msg)], [inr values] for
    [return values]. *)
Definition validate_mutex_nreals_percentile (values : gmap string PyVal)
  : string + gmap string PyVal :=
  let has_nreals := is_not_None (dict_get values "number_of_realizations") in
  let has_percentile := is_not_None (dict_get values "percentile") in
  if negb (xorb has_nreals has_percentile)
  then inl mutex_message
  else inr values.

(** A float without fractional part. *)
Definition is_integral (q : Q) : bool := (Qnum q mod Zpos (Qden q) =? 0)%Z.

(** Field [number_of_realizations: Optional[int]] (default [None]); a
    float is taken for an int when it has no fractional part. *)
Definition validate_number_of_realizations (v : PyVal) : ErrorType + option Z :=
  match v with
  | PyNone => inr None
  | PyInt z => inr (Some z)
  | PyFloat q =>
      if is_integral q
      then inr (Some (Qnum q / Zpos (Qden q))%Z)
      else inl int_from_float
  end.

(** Field [percentile: Optional[float]] with [ge=0.0, le=1.0] (default [None]). *)
Definition validate_percentile (v : PyVal) : ErrorType + option Q :=
  let check (q : Q) :=
    if negb (Qle_bool 0 q) then inl (greater_than_equal 0)
    else if negb (Qle_bool q 1) then inl (less_than_equal 1)
    else inr (Some q) in
  match v with
  | PyNone => inr None
  | PyInt z => check (inject_Z z)
  | PyFloat q => check q
  end.

Definition field_names : list string := ["number_of_realizations"; "percentile"].

(** Keys of [values] that name no field, in the map's key order. *)
Definition extra_keys (values : gmap string PyVal) : list string :=
  filter (fun k => k ∉ field_names) (map_to_list values).*1.

Definition field_error {A} (name : string) (r : ErrorType + A) : list ErrorDetails :=
  match r with
  | inl e => [mkError [name] e]
  | inr _ => []
  end.

(** The errors of the field-level pass: every field in declaration order,
    then every unknown key ([extra="forbid"]). *)
Definition field_violations (values : gmap string PyVal) : list ErrorDetails :=
  field_error "number_of_realizations"
    (validate_number_of_realizations (dict_get values "number_of_realizations"))
  ++ field_error "percentile" (validate_percentile (dict_get values "percentile"))
  ++ ((fun k => mkError [k] extra_forbidden) <$> extra_keys values).

Definition mutex_error : ErrorDetails := mkError [] (value_error mutex_message).

(** [CVaRConfig.model_validate(values)]: the [mode="before"] model validator
    runs on the raw input first; when it raises, pydantic reports that one
    error and validates no field.  Otherwise every field is validated and
    all field errors are collected.  [inl errs] stands for
    [raise ValidationError] with [errors() = errs]. *)
Definition model_validate (values : gmap string PyVal)
  : list ErrorDetails + CVaRConfig :=
  match validate_mutex_nreals_percentile values with
  | inl msg => inl [mkError [] (value_error msg)]
  | inr values' =>
      match validate_number_of_realizations (dict_get values' "number_of_realizations"),
            validate_percentile (dict_get values' "percentile"),
            extra_keys values' with
      | inr n, inr p, [] => inr (mkCVaRConfig n p)
      | _, _, _ => inl (field_violations values')
      end
  end.

(** A field is set when the dict holds a value other than [None] for it. *)
Definition is_set (values : gmap string PyVal) (key : string) : Prop :=
  exists v, values !! key = Some v /\ v <> PyNone.

(** The exhaustive diagnostic list the specification asks for: the
    mutual-exclusion violation, if any, followed by every field-level one. *)
Definition all_violations (values : gmap string PyVal) : list ErrorDetails :=
  match validate_mutex_nreals_percentile values with
  | inl msg => [mkError [] (value_error msg)]
  | inr _ => []
  end ++ field_violations values.

Definition both_or_neither (values : gmap string PyVal) : Prop :=
  (is_set values "number_of_realizations" /\ is_set values "percentile") \/
  (~ is_set values "number_of_realizations" /\ ~ is_set values "percentile").

Definition exactly_one (values : gmap string PyVal) : Prop :=
  (is_set values "number_of_realizations" /\ ~ is_set values "percentile") \/
  (~ is_set values "number_of_realizations" /\ is_set values "percentile").

(** The number a value stands for, if any. *)
Definition as_number (v : PyVal) : option Q :=
  match v with
  | PyNone => None
  | PyInt z => Some (inject_Z z)
  | PyFloat q => Some q
  end.

(** The violations a CVaR section can hold, each with the error that
    names it: the declared constraints of the model, one by one. *)
Inductive Violation (values : gmap string PyVal) : ErrorDetails -> Prop :=
  | mutex_violated :
      both_or_neither values ->
      Violation values mutex_error
  | nreals_not_int q :
      values !! "number_of_realizations" = Some (PyFloat q) ->
      is_integral q = false ->
      Violation values (mkError ["number_of_realizations"] int_from_float)
  | percentile_below q :
      as_number (dict_get values "percentile") = Some q ->
      (q < 0)%Q ->
      Violation values (mkError ["percentile"] (greater_than_equal 0))
  | percentile_above q :
      as_number (dict_get values "percentile") = Some q ->
      (1 < q)%Q ->
      Violation values (mkError ["percentile"] (less_than_equal 1))
  | unknown_key k :
      is_Some (values !! k) ->
      k ∉ field_names ->
      Violation values (mkError [k] extra_forbidden).

(** The errors a validation reports; none when it returns a model. *)
Definition errors_of {A} (r : list ErrorDetails + A) : list ErrorDetails :=
  match r with
  | inl errs => errs
  | inr _ => []
  end.

(** The configurations used as concrete inputs below. *)
Definition both_set_bad_percentile : gmap string PyVal :=
  <["number_of_realizations" := PyInt 1]> (<["percentile" := PyFloat (5 # 1)]> ∅).
Definition only_nreals : gmap string PyVal :=
  <["number_of_realizations" := PyInt 3]> ∅.
Definition only_percentile : gmap string PyVal :=
  <["percentile" := PyFloat (1 # 4)]> ∅.

End CVaR.


(** ** Objective functions: validation and translation *)

Module Objectives.

(** One entry of [objective_functions], structurally valid (it has a name). *)
Record ObjectiveFunction : Type := mkObjective {
  name : string;
  weight : option Q;
  normalization : option Q
}.

(** The message texts [tests/test_multiobjective.py] matches against
    (lines 27-28, 46 and 59). *)
Definition weight_message : string :=
  "Weight should be given either for all of the objectives or for none of them".
Definition positive_message : string := "Input should be greater than 0".
Definition normalization_message : string := "Normalization value cannot be zero".

Definition has_weight (o : ObjectiveFunction) : bool :=
  match weight o with Some _ => true | None => false end.

(** Modelled from the spec: the all-or-nothing weight check of the objective
    list (section 4.1), whose code in [everest/config] is not among the
    sources; the text of the error is the one the test expects. *)
Definition validate_weights_all_or_none (objs : list ObjectiveFunction) : list string :=
  if forallb has_weight objs || forallb (fun o => negb (has_weight o)) objs
  then []
  else [weight_message].

(** Modelled from the spec: the per-objective check [weight > 0] when a
    weight is present (section 4.1); the validator is not among the sources. *)
Definition validate_weight (o : ObjectiveFunction) : list string :=
  match weight o with
  | Some w => if Qle_bool w 0 then [positive_message] else []
  | None => []
  end.

(** Modelled from the spec: the per-objective check [normalization != 0]
    when a normalization is present (section 4.1); the validator is not
    among the sources. *)
Definition validate_normalization (o : ObjectiveFunction) : list string :=
  match normalization o with
  | Some n => if Qeq_bool n 0 then [normalization_message] else []
  | None => []
  end.

(** Modelled from the spec: [EverestConfig.lint_config_dict] restricted to
    the objective list; it returns every violation found (section 4.1).
    The function itself is not among the sources. *)
Definition lint_objectives (objs : list ObjectiveFunction) : list string :=
  flat_map (fun o => validate_weight o ++ validate_normalization o) objs
  ++ validate_weights_all_or_none objs.

(** [has_error(errors, match=...)] of the tests: some reported message
    contains the expected text. *)
Definition has_error (errors : list string) (expected : string) : bool :=
  existsb (contains expected) errors.

(** The text the specification quotes for the all-or-nothing error. *)
Definition quoted_weight_message : string :=
  "weight must be given either for all of the objectives or for none".

(** Some objective declares a weight and some other does not. *)
Definition some_not_all (objs : list ObjectiveFunction) : Prop :=
  (exists o, o ∈ objs /\ weight o <> None) /\ (exists o, o ∈ objs /\ weight o = None).

(** Every objective declares a weight, or none does. *)
Definition all_or_none (objs : list ObjectiveFunction) : Prop :=
  (forall o, o ∈ objs -> weight o <> None) \/ (forall o, o ∈ objs -> weight o = None).

(** The engine-facing objective section produced by translation. *)
Record RoptObjectives : Type := mkRopt {
  names : list string;
  weights : list Q;
  scales : list Q
}.

(** [sum(ws)]: a left fold from 0. *)
Definition total_weight (ws : list Q) : Q := fold_left Qplus ws 0%Q.

Definition declared_weights (objs : list ObjectiveFunction) : list Q :=
  omap weight objs.

(** Modelled from the spec: [everest2ropt] restricted to the objectives
    (section 4.2); [everest/optimizer/everest2ropt.py] is not among the
    sources.  With a weight on every objective the output weight is
    [w_i / sum w]; with none it is the equal split; the scale is the
    declared normalization, else the neutral scale 1. *)
Definition everest2ropt (objs : list ObjectiveFunction) : RoptObjectives :=
  let ws := declared_weights objs in
  let total := total_weight ws in
  {| names := name <$> objs;
     weights :=
       if forallb has_weight objs
       then (fun w => (w / total)%Q) <$> ws
       else (fun _ => (1 / inject_Z (Z.of_nat (length objs)))%Q) <$> objs;
     scales := (fun o => default 1%Q (normalization o)) <$> objs |}.

(** [sums_to ws total]: [total] is the sum of the numbers in [ws]. *)
Inductive sums_to : list Q -> Q -> Prop :=
  | sums_to_nil : sums_to [] 0%Q
  | sums_to_cons (w : Q) (ws : list Q) (total : Q) :
      sums_to ws total -> sums_to (w :: ws) (w + total)%Q.

(** The objectives of the end-to-end scenario of the specification:
    weights 1 and 3, the first with normalization 1. *)
Definition scenario_objectives : list ObjectiveFunction :=
  [mkObjective "first" (Some 1%Q) (Some 1%Q); mkObjective "second" (Some 3%Q) None].

(** The objective lists of [tests/test_multiobjective.py]. *)
Definition partial_weights : list ObjectiveFunction :=
  [mkObjective "distance_p" (Some 1%Q) None; mkObjective "distance_q" None None].
Definition test_objectives : list ObjectiveFunction :=
  [mkObjective "distance_p" (Some (133 # 100)) (Some 1%Q);
   mkObjective "distance_q" (Some (31 # 10)) None].
Definition negative_normalization : list ObjectiveFunction :=
  [mkObjective "distance_p" (Some 1%Q) None;
   mkObjective "distance_q" (Some 3%Q) None;
   mkObjective " test_obj" (Some 1%Q) (Some (-125 # 1))].

End Objectives.


(** ** forward_models.py *)

Module ForwardModels.

(** An item of an error location: a field name or a list index. *)
Inductive LocItem : Type :=
  | LocStr (s : string)
  | LocInt (i : Z).

Definition str_of_loc (l : LocItem) : string :=
  match l with
  | LocStr s => s
  | LocInt i => DecimalString.NilZero.string_of_int (Z.to_int i)
  end.

(** One entry of [ValidationError.errors()]: the keys the handler reads.
    [input] holds the text [str()] gives for the offending input. *)
Record ErrorDict : Type := mkErrorDict {
  loc : list LocItem;
  input : string;
  msg : string
}.

(** The exceptions that can leave [parse_forward_model_file]. *)
Inductive Exn : Type :=
  | ValueError (message : string)
  | IndexError (message : string)
  | KeyError (key : string)
  | OtherError (description : string).

(** What the plugin hook [pm.hook.parse_forward_model_schema] does on a
    call: it returns the list of the plugins' results, or raises.  A
    pydantic [ValidationError] is a subclass of [ValueError]; it is kept
    apart because the handler for it comes first. *)
Inductive HookOutcome (T : Type) : Type :=
  | Returns (res : list T)
  | RaisesValidationError (errors : list ErrorDict)
  | RaisesValueError (message : string)
  | RaisesOther (description : string).
Arguments Returns {T} res.
Arguments RaisesValidationError {T} errors.
Arguments RaisesValueError {T} message.
Arguments RaisesOther {T} description.

(** [f"{error['loc'][0]}: {error['input']} -> {error['msg']}"];
    [error['loc'][0]] raises IndexError on an empty location. *)
Definition describe (error : ErrorDict) : Exn + string :=
  match loc error with
  | [] => inl (IndexError "tuple index out of range")
  | l0 :: _ => inr (str_of_loc l0 +:+ ": " +:+ input error +:+ " -> " +:+ msg error)
  end.

(** The generator expression consumed by [join]: it stops at the first
    entry whose rendering raises. *)
Fixpoint describe_all (errors : list ErrorDict) : Exn + list string :=
  match errors with
  | [] => inr []
  | error :: rest =>
      match describe error with
      | inl x => inl x
      | inr d =>
          match describe_all rest with
          | inl x => inl x
          | inr ds => inr (d :: ds)
          end
      end
  end.

Section Parse.

(** [str_format message e] is Python's [message.format(error=e)]: the
    formatted text, or the exception [str.format] raises on the template. *)
Variable str_format : string -> string -> Exn + string.

(** [raise ValueError(message.format(error=e))] *)
Definition raise_formatted {T} (message e : string) : Exn + list T :=
  match str_format message e with
  | inl x => inl x
  | inr s => inl (ValueError s)
  end.

(** [parse_forward_model_file], forward_models.py lines 20-36; [hook] is
    the outcome of [pm.hook.parse_forward_model_schema(path=path,
    schema=schema)].  The value returned is [res] after [res.pop()], which
    drops its last element. *)
Definition parse_forward_model_file {T} (hook : HookOutcome T) (message : string)
  : Exn + list T :=
  match hook with
  | Returns res =>
      match res with
      | [] => inr res
      | _ => inr (removelast res)
      end
  | RaisesValidationError errors =>
      match describe_all errors with
      | inl x => inl x
      | inr ds => raise_formatted message (join (nl +:+ tab +:+ tab) ds)
      end
  | RaisesValueError m => raise_formatted message m
  | RaisesOther d => inl (OtherError d)
  end.

End Parse.

(** Hook outcomes used as concrete inputs: a field-level error, and the
    model-level error pydantic reports (with an empty location) when the
    file does not hold a mapping. *)
Definition field_failure : HookOutcome unit :=
  RaisesValidationError
    [mkErrorDict [LocStr "wells"; LocInt 0] "abc" "Input should be a valid number"].
Definition model_level_failure : HookOutcome unit :=
  RaisesValidationError
    [mkErrorDict [] "None" "Input should be a valid dictionary or instance of Config"].

(** An instance of [str.format] for templates made of literal text,
    doubled braces and named fields without conversion or format
    specification; [field] holds the name read so far inside braces. *)
Fixpoint format_fields (s : string) (field : option string) (e : string) : Exn + string :=
  let cons (c : ascii) (r : Exn + string) : Exn + string :=
    match r with inr t => inr (String c t) | inl x => inl x end in
  match s, field with
  | "", None => inr ""
  | "", Some _ => inl (ValueError "expected '}' before end of string")
  | String c rest, Some f =>
      if Ascii.eqb c "}"
      then if String.eqb f "error"
           then match format_fields rest None e with
                | inr t => inr (e +:+ t)
                | inl x => inl x
                end
           else inl (KeyError f)
      else format_fields rest (Some (f +:+ String c "")) e
  | String c rest, None =>
      if Ascii.eqb c "{" then
        match rest with
        | "" => inl (ValueError "Single '{' encountered in format string")
        | String c' rest' =>
            if Ascii.eqb c' "{" then cons c (format_fields rest' None e)
            else format_fields rest (Some "") e
        end
      else if Ascii.eqb c "}" then
        match rest with
        | String c' rest' =>
            if Ascii.eqb c' "}" then cons c (format_fields rest' None e)
            else inl (ValueError "Single '}' encountered in format string")
        | "" => inl (ValueError "Single '}' encountered in format string")
        end
      else cons c (format_fields rest None e)
  end.

Definition format_error (message e : string) : Exn + string :=
  format_fields message None e.

End ForwardModels.


(** ** everest_script.py *)

Module Script.

(** Modelled from the spec: the values of [everest.detached.ServerStatus]
    (section 4.3); the declaration of the enum is not among the sources. *)
Inductive ServerStatus : Type :=
  | never_run | starting | running | completed | failed | stopped.

Definition is_never_run (s : ServerStatus) : bool :=
  match s with never_run => true | _ => false end.
Definition is_failed (s : ServerStatus) : bool :=
  match s with failed => true | _ => false end.

(** The persisted status record, the dict [everserver_status] returns:
    [server_state["status"]] and [server_state["message"]]. *)
Record StatusRecord : Type := mkStatus {
  status : ServerStatus;
  message : option string
}.

(** The attributes of [options.config] the script reads; [to_dict] holds
    the text [str(config.to_dict())]. *)
Record EverestConfig : Type := mkConfig {
  config_file : string;
  forward_model : list string;
  output_dir : string;
  to_dict : string
}.

(** The namespace [setup_args] returns. *)
Record Options : Type := mkOptions {
  config : EverestConfig;
  new_run : bool;
  kill : bool;
  debug : bool;
  show_all_jobs : bool
}.

(** Calls into collaborators whose code is outside the script. *)
Inductive Collaborator : Type :=
  | generate_ert_config (debug : bool)  (* ErtConfig.from_dict(generate_ert_config(..)) *)
  | makedirs_if_needed (dir : string)
  | open_storage
  | close_storage                       (* leaving the [with open_storage] block *)
  | start_server
  | wait_for_server (timeout : Z)
  | run_detached_monitor (show_all : bool)
  | wait_for_context
  | report_on_previous_run.

Inductive Level : Type := INFO | ERROR.

(** What an invocation does that an observer can see. *)
Inductive Event : Type :=
  | Printed (text : string)
  | Logged (level : Level) (text : string)
  | StatusQueried                       (* everserver_status(config) *)
  | LivenessProbed                      (* server_is_running(config) *)
  | Called (c : Collaborator).

Inductive Exn : Type :=
  | SystemExit (arg : option string)
  | IndexError (text : string)
  | Failure (description : string).     (* raised by a collaborator *)

(** The job as seen from one invocation: the persisted record, whether the
    server answers, and the events of this invocation, oldest first. *)
Record World : Type := mkWorld {
  record : StatusRecord;
  alive : bool;
  trace : list Event
}.

Inductive Result (A : Type) : Type :=
  | Ok (a : A)
  | Raise (e : Exn).
Arguments Ok {A} a.
Arguments Raise {A} e.

(** Statements of the script: a state and exception monad over [World]. *)
Definition M (A : Type) : Type := World -> Result A * World.

Definition ret {A} (a : A) : M A := fun w => (Ok a, w).
Definition bind {A B} (m : M A) (k : A -> M B) : M B := fun w =>
  match m w with
  | (Ok a, w') => k a w'
  | (Raise e, w') => (Raise e, w')
  end.

Declare Scope script_scope.
Delimit Scope script_scope with script.
Bind Scope script_scope with M.
Notation "x ← y ; z" := (bind y (fun x => z))
  (at level 20, y at level 100, z at level 200, only parsing) : script_scope.
Notation "x ;; z" := (bind x (fun _ => z))
  (at level 100, z at level 200, only parsing, right associativity) : script_scope.
Local Open Scope script_scope.

Definition raise {A} (e : Exn) : M A := fun w => (Raise e, w).

Definition emit (ev : Event) : M unit := fun w =>
  (Ok tt, mkWorld (record w) (alive w) (trace w ++ [ev])).

Definition print (text : string) : M unit := emit (Printed text).
Definition logger_info (text : string) : M unit := emit (Logged INFO text).
Definition logger_error (text : string) : M unit := emit (Logged ERROR text).

(** [try: body finally: cleanup] *)
Definition finally {A} (body : M A) (cleanup : M unit) : M A := fun w =>
  match body w with
  | (r, w1) =>
      match cleanup w1 with
      | (Ok _, w2) => (r, w2)
      | (Raise e, w2) => (Raise e, w2)
      end
  end.

(** Modelled from the spec: [everserver_status] reads the persisted record
    and never writes it (section 3); its code is not among the sources. *)
Definition everserver_status : M StatusRecord := fun w =>
  (Ok (record w), mkWorld (record w) (alive w) (trace w ++ [StatusQueried])).

(** Modelled from the spec: [server_is_running] is the liveness probe, a
    read (section 5); its code is not among the sources. *)
Definition server_is_running : M bool := fun w =>
  (Ok (alive w), mkWorld (record w) (alive w) (trace w ++ [LivenessProbed])).

Definition exit_status {A} (r : Result A) : Z :=
  match r with
  | Ok _ => 0
  | Raise (SystemExit None) => 0
  | Raise _ => 1
  end.

(** What the interpreter writes to stderr for an uncaught [SystemExit]. *)
Definition exit_message {A} (r : Result A) : option string :=
  match r with
  | Raise (SystemExit (Some text)) => Some text
  | _ => None
  end.

Definition running_message (config_file : string) : string :=
  "An optimization is currently running." +:+ nl +:+
  "To monitor the running optimization use command:" +:+ nl +:+
  "  `everest monitor " +:+ config_file +:+ "`" +:+ nl +:+
  "To kill the running optimization use command:" +:+ nl +:+
  "  `everest kill " +:+ config_file +:+ "`".

Definition removed_message (config_file : string) : string :=
  "The `everest run --kill` option has been removed." +:+ nl +:+
  "To kill the running optimization use command:" +:+ nl +:+
  "  `everest kill " +:+ config_file +:+ "`".

Definition monitor_hint (config_file : string) : string :=
  "`everest monitor " +:+ config_file +:+ "`".
Definition kill_hint (config_file : string) : string :=
  "`everest kill " +:+ config_file +:+ "`".

Section Run.

(** What a collaborator does when called: it may change the persisted
    record and the liveness of the server, and may raise. *)
Variable collaborator :
  Collaborator -> StatusRecord * bool -> option Exn * (StatusRecord * bool).

Definition call (c : Collaborator) : M unit := fun w =>
  match collaborator c (record w, alive w) with
  | (outcome, (r, a)) =>
      (match outcome with Some e => Raise e | None => Ok tt end,
       mkWorld r a (trace w ++ [Called c]))
  end.

(** [_kill_everest], everest_script.py lines 88-96. *)
Definition _kill_everest (options : Options) : M unit :=
  let config_file := config_file (config options) in
  print (repeat_char "=" 80) ;;
  print (removed_message config_file) ;;
  print (repeat_char "=" 80).

(** [_run_everest], lines 99-106.  [PluginSiteConfigEnv] only sets
    environment variables around the body and is left out. *)
Definition _run_everest (options : Options) : M unit :=
  call start_server ;;
  print "Waiting for server ..." ;;
  call (wait_for_server 600) ;;
  print "Everest server found!" ;;
  call (run_detached_monitor (show_all_jobs options)) ;;
  call wait_for_context.

(** The loop of lines 128-130. *)
Fixpoint log_forward_model (jobs : list string) : M unit :=
  match jobs with
  | [] => ret tt
  | fm_job :: rest =>
      match first_word fm_job with
      | None => raise (IndexError "list index out of range")
      | Some job_name =>
          logger_info ("Everest forward model contains job " +:+ job_name) ;;
          log_forward_model rest
      end
  end.

(** Lines 126-140: prepare the run, start the server and follow it. *)
Definition launch (options : Options) : M unit :=
  logger_info ("Running everest with config info" +:+ nl +:+ " "
               +:+ to_dict (config options)) ;;
  log_forward_model (forward_model (config options)) ;;
  call (generate_ert_config (debug options)) ;;
  call (makedirs_if_needed (output_dir (config options))) ;;
  call open_storage ;;
  finally (_run_everest options) (call close_storage).

(** Lines 142-149: read the record again and turn it into the outcome. *)
Definition report_outcome : M unit :=
  server_state ← everserver_status ;
  let server_state_info := message server_state in
  if is_failed (status server_state) then
    logger_error ("Everest run failed with: " +:+ str_of_optional server_state_info) ;;
    raise (SystemExit server_state_info)
  else
    match server_state_info with
    | Some info =>
        logger_info ("Everest run finished with: " +:+ info) ;;
        print info
    | None => ret tt
    end.

(** [run_everest], lines 109-151. *)
Definition run_everest (options : Options) : M unit :=
  if kill options then _kill_everest options
  else
    server_state ← everserver_status ;
    is_running ← server_is_running ;
    if is_running then
      print (running_message (config_file (config options)))
    else if is_never_run (status server_state) || new_run options then
      launch options ;;
      report_outcome
    else
      call report_on_previous_run.

End Run.

(** Observations on the events an invocation added. *)
Definition is_launch (ev : Event) : bool :=
  match ev with Called start_server => true | _ => false end.
Definition is_status_query (ev : Event) : bool :=
  match ev with StatusQueried | LivenessProbed => true | _ => false end.
Definition is_call (ev : Event) : bool :=
  match ev with Called _ => true | _ => false end.
Definition prints (needle : string) (ev : Event) : bool :=
  match ev with Printed text => contains needle text | _ => false end.

(** Collaborators for the concrete runs below: every call succeeds; the
    monitored job ends in the given record and the server goes away. *)
Definition job_ends_with (final : StatusRecord)
  (c : Collaborator) (st : StatusRecord * bool) : option Exn * (StatusRecord * bool) :=
  match c with
  | start_server => (None, (mkStatus starting None, true))
  | wait_for_server _ => (None, (mkStatus running None, true))
  | run_detached_monitor _ => (None, (final, false))
  | _ => (None, st)
  end.

Definition failing_job :=
  job_ends_with (mkStatus failed (Some "simulation crashed")).
Definition finishing_job :=
  job_ends_with (mkStatus completed (Some "Maximum number of batches reached")).

Definition test_config : EverestConfig :=
  mkConfig "config.yml" ["well_trajectory -c wells.json"; "simulate"] "everest_output" "{}".
Definition plain_run : Options := mkOptions test_config false false false false.
Definition forced_run : Options := mkOptions test_config true false false false.
Definition kill_run : Options := mkOptions test_config true true false false.

Definition idle_world : World := mkWorld (mkStatus never_run None) false [].
Definition busy_world : World := mkWorld (mkStatus running None) true [].

End Script.


(** ** forward_models.py: the collectors *)

Module Collectors.

(** [collect_forward_models], forward_models.py lines 12-13: [hook] is the
    list [pm.hook.get_forward_models()] returns, one list of jobs per
    plugin; [chain.from_iterable] runs through them in order. *)
Definition collect_forward_models {Job} (hook : list (list Job)) : list Job :=
  concat hook.

(** [collect_forward_model_schemas], lines 16-17: [hook] is the list
    [pm.hook.get_forward_models_schemas()] returns; [list.pop()] takes its
    last element and raises IndexError on an empty list. *)
Definition collect_forward_model_schemas {Schemas} (hook : list Schemas)
  : ForwardModels.Exn + Schemas :=
  match last hook with
  | Some schemas => inr schemas
  | None => inl (ForwardModels.IndexError "pop from empty list")
  end.

End Collectors.


(** ** ieverest/io/qt_dialogs_output.py *)

Module QtDialogs.

(** The level constants of Python's [logging]. *)
Definition CRITICAL : Z := 50.
Definition ERROR : Z := 40.
Definition WARNING : Z := 30.
Definition INFO : Z := 20.
Definition DEBUG : Z := 10.

(** The static methods of [QMessageBox] the class calls. *)
Inductive Box : Type := critical_box | warning_box | information_box.

(** One call [QMessageBox.<box>(parent, title, text)]. *)
Record Dialog (Window : Type) : Type := mkDialog {
  box : Box;
  parent : Window;
  title : string;
  text : string
}.
Arguments mkDialog {Window} box parent title text.
Arguments box {Window} d.
Arguments parent {Window} d.
Arguments title {Window} d.
Arguments text {Window} d.

Section Dialogs.

Variable Window : Type.

(** [class QtDialogsOut]: the two attributes [__init__] sets. *)
Record QtDialogsOut : Type := mkQtDialogsOut {
  _main_window : Window;
  log_level : Z
}.

(** [QtDialogsOut(qt_main_window)]: [log_level] defaults to WARNING. *)
Definition default_dialogs (qt_main_window : Window) : QtDialogsOut :=
  mkQtDialogsOut qt_main_window WARNING.

(** The body shared by the five methods: [if LEVEL >= self.log_level or
    force: QMessageBox.<box>(self._main_window, title, message)]; the
    result lists the dialogs the call opens. *)
Definition show (level : Z) (kind : Box) (heading : string)
    (self : QtDialogsOut) (message : string) (force : bool) : list (Dialog Window) :=
  if (level >=? log_level self)%Z || force
  then [mkDialog kind (_main_window self) heading message]
  else [].

Definition critical := show CRITICAL critical_box "Critical".
Definition _error := show ERROR critical_box "Error".
Definition warning := show WARNING warning_box "Warning".
Definition info := show INFO information_box "Information".
Definition debug := show DEBUG information_box "Debug".

End Dialogs.

Arguments _main_window {Window} q.
Arguments log_level {Window} q.
Arguments critical {Window} self message force.
Arguments _error {Window} self message force.
Arguments warning {Window} self message force.
Arguments info {Window} self message force.
Arguments debug {Window} self message force.
Arguments default_dialogs {Window} qt_main_window.

End QtDialogs.


(** ** tests/utils/__init__.py *)

Module TestUtils.

(** *** [MockParser] *)

(** [class MockParser]: the one attribute, [None] until [error] is called. *)
Record MockParser : Type := mkMockParser {
  error_msg : option string
}.

(** [MockParser()] *)
Definition new_parser : MockParser := mkMockParser None.

(** [get_error] *)
Definition get_error (self : MockParser) : option string := error_msg self.

(** [error(value=None)]: [self.error_msg = value]. *)
Definition error (self : MockParser) (value : option string) : MockParser :=
  mkMockParser value.

(** *** [everest_default_jobs] *)

(** [path.endswith("/")] *)
Fixpoint ends_with_sep (path : string) : bool :=
  match path with
  | "" => false
  | String c "" => Ascii.eqb c "/"
  | String _ rest => ends_with_sep rest
  end.

(** One round of the loop of [posixpath.join]: an absolute component
    replaces the path; otherwise it is appended, after a separator unless
    the path is empty or ends with one. *)
Definition join_component (path b : string) : string :=
  if String.prefix "/" b then b
  else if String.eqb path "" || ends_with_sep path then path +:+ b
  else path +:+ "/" +:+ b.

(** [os.path.join(a, *p)] on a POSIX system. *)
Definition path_join (a : string) (p : list string) : string :=
  fold_left join_component p a.

(** [job[key]] on a dict: KeyError when the key is absent. *)
Definition getitem (job : gmap string string) (key : string)
  : ForwardModels.Exn + string :=
  match job !! key with
  | Some v => inr v
  | None => inl (ForwardModels.KeyError key)
  end.

(** [[(job["name"], job["path"]) for job in jobs]] *)
Fixpoint named_paths (jobs : list (gmap string string))
  : ForwardModels.Exn + list (string * string) :=
  match jobs with
  | [] => inr []
  | job :: rest =>
      match getitem job "name" with
      | inl e => inl e
      | inr n =>
          match getitem job "path" with
          | inl e => inl e
          | inr p =>
              match named_paths rest with
              | inl e => inl e
              | inr l => inr ((n, p) :: l)
              end
          end
      end
  end.

(** [everest_default_jobs], lines 188-195.  [script_names] is the constant
    of [everest.jobs]; [hook] is what [pm.hook.get_forward_models()]
    returns. *)
Definition everest_default_jobs (script_names : list string)
    (hook : list (list (gmap string string))) (output_dir : string)
  : ForwardModels.Exn + list (string * string) :=
  let scripts :=
    (fun script_name =>
       (script_name, path_join output_dir [".jobs"; "_" +:+ script_name]))
    <$> script_names in
  match named_paths (Collectors.collect_forward_models hook) with
  | inl e => inl e
  | inr plugins => inr (scripts ++ plugins)
  end.

(** *** The context managers *)

Inductive Exn : Type :=
  | OSError (text : string)             (* IOError is the same class *)
  | Raised (description : string).      (* any other exception *)

Inductive Result (A : Type) : Type :=
  | Ok (a : A)
  | Raise (e : Exn).
Arguments Ok {A} a.
Arguments Raise {A} e.

(** Statements over a state [S] that may raise. *)
Definition St (S A : Type) : Type := S -> Result A * S.

Definition ret {S A} (a : A) : St S A := fun s => (Ok a, s).
Definition bind {S A B} (m : St S A) (k : A -> St S B) : St S B := fun s =>
  match m s with
  | (Ok a, s') => k a s'
  | (Raise e, s') => (Raise e, s')
  end.
Definition raise {S A} (e : Exn) : St S A := fun s => (Raise e, s).

Declare Scope testutils_scope.
Delimit Scope testutils_scope with testutils.
Bind Scope testutils_scope with St.
Notation "x ← y ; z" := (bind y (fun x => z))
  (at level 20, y at level 100, z at level 200, only parsing) : testutils_scope.
Notation "x ;; z" := (bind x (fun _ => z))
  (at level 100, z at level 200, only parsing, right associativity) : testutils_scope.
Local Open Scope testutils_scope.

(** [try: body finally: cleanup] *)
Definition finally {S A} (body : St S A) (cleanup : St S unit) : St S A := fun s =>
  match body s with
  | (r, s1) =>
      match cleanup s1 with
      | (Ok _, s2) => (r, s2)
      | (Raise e, s2) => (Raise e, s2)
      end
  end.

(** [try: body except OSError: handler] *)
Definition except_OSError {S A} (body : St S A) (handler : St S A) : St S A := fun s =>
  match body s with
  | (Raise (OSError _), s1) => handler s1
  | other => other
  end.

(** The part of the file system the functions touch: the working directory
    and the directories that exist, by path. *)
Record FileSystem : Type := mkFS {
  cwd : string;
  dirs : gset string
}.

(** [os.getcwd()] *)
Definition getcwd : St FileSystem string := fun fs => (Ok (cwd fs), fs).

(** [os.path.isdir(path)] *)
Definition isdir (path : string) : St FileSystem bool := fun fs =>
  (Ok (bool_decide (path ∈ dirs fs)), fs).

(** [os.mkdir(path)]: fails when the path exists. *)
Definition mkdir (path : string) : St FileSystem unit := fun fs =>
  if bool_decide (path ∈ dirs fs)
  then (Raise (OSError ("File exists: " +:+ path)), fs)
  else (Ok tt, mkFS (cwd fs) ({[path]} ∪ dirs fs)).

(** [shutil.copytree(src, dst)]: creates [dst], which must not exist, from
    the directory [src]; what the tree holds is not tracked. *)
Definition copytree (src dst : string) : St FileSystem unit := fun fs =>
  if bool_decide (src ∈ dirs fs)
  then mkdir dst fs
  else (Raise (OSError ("No such file or directory: " +:+ src)), fs).

(** [os.chdir(path)] *)
Definition chdir (path : string) : St FileSystem unit := fun fs =>
  if bool_decide (path ∈ dirs fs)
  then (Ok tt, mkFS path (dirs fs))
  else (Raise (OSError ("No such file or directory: " +:+ path)), fs).

Section Tmp.

(** [shutil.rmtree(path, ignore_errors=...)].  Whether the operating system
    lets a tree be deleted, and how much of it is gone when it does not, is
    not fixed here: [rmtree] stands for any behaviour of the call, and each
    property states what it uses of it. *)
Variable rmtree : string -> bool -> St FileSystem unit.

(** [with tmp(path, teardown) as fname: body], lines 67-105.  [fname] is
    the name [tempfile.NamedTemporaryFile().name] gives.  The generator has
    no [try] around its [yield]: when the body raises, the lines after the
    [yield] do not run.  The calls to [logging.debug] are left out. *)
Definition tmp {A} (fname : string) (path : option string) (teardown : bool)
    (body : string -> St FileSystem A) : St FileSystem A :=
  cwd0 ← getcwd ;
  match path with
  | Some p =>
      if negb (String.eqb p "") then
        is_dir ← isdir p ;
        if negb is_dir
        then raise (OSError ("No such directory: " +:+ p))
        else copytree p fname
      else mkdir fname
  | None => mkdir fname
  end ;;
  chdir fname ;;
  result ← body fname ;
  chdir cwd0 ;;
  (if teardown
   then except_OSError (rmtree fname false) (rmtree fname true)
   else ret tt) ;;
  ret result.

(** [tmpdir(path, teardown)(function)], lines 54-64: the decorated
    function runs inside [with tmp(path, teardown=teardown)]. *)
Definition tmpdir {A} (fname : string) (path : option string) (teardown : bool)
    (function : St FileSystem A) : St FileSystem A :=
  tmp fname path teardown (fun _ => function).

End Tmp.

(** One behaviour of [shutil.rmtree], for the runs below: the directories
    of [protected] cannot be deleted.  Deleting an existing, unprotected
    [path] removes it and every directory under it; any other call fails
    with an OSError and leaves everything in place, silently with
    [ignore_errors]. *)
Definition rmtree_unless (protected : gset string) (path : string)
    (ignore_errors : bool) : St FileSystem unit := fun fs =>
  if bool_decide (path ∈ dirs fs) && negb (bool_decide (path ∈ protected))
  then (Ok tt,
        mkFS (cwd fs)
          (filter (fun d => d <> path /\ String.prefix (path +:+ "/") d = false) (dirs fs)))
  else if ignore_errors then (Ok tt, fs)
  else (Raise (OSError ("Cannot remove: " +:+ path)), fs).

(** The streams of [sys] and, for every stream object, the text written
    to it so far. *)
Record Streams : Type := mkStreams {
  sys_stdout : nat;
  sys_stderr : nat;
  written : gmap nat string
}.

(** [StringIO()]: a new, empty stream object. *)
Definition StringIO : St Streams nat := fun st =>
  let stream := fresh (dom (written st)) in
  (Ok stream, mkStreams (sys_stdout st) (sys_stderr st) (<[stream := ""]> (written st))).

(** [stream.write(text)] *)
Definition write (stream : nat) (text : string) : St Streams unit := fun st =>
  (Ok tt, mkStreams (sys_stdout st) (sys_stderr st)
            (alter (fun s => s +:+ text) stream (written st))).

(** [print(text)]: writes the text and a newline to [sys.stdout]. *)
Definition print (text : string) : St Streams unit := fun st =>
  write (sys_stdout st) (text +:+ nl) st.

(** [stream.getvalue()] *)
Definition getvalue (stream : nat) (st : Streams) : string :=
  default "" (written st !! stream).

(** [sys.stdout, sys.stderr = out, err] *)
Definition set_streams (out err : nat) : St Streams unit := fun st =>
  (Ok tt, mkStreams out err (written st)).

(** [with capture_streams() as (out, err): body], lines 108-123. *)
Definition capture_streams {A} (body : nat * nat -> St Streams A) : St Streams A :=
  new_out ← StringIO ;
  new_err ← StringIO ;
  fun st =>
    let old_out := sys_stdout st in
    let old_err := sys_stderr st in
    finally (set_streams new_out new_err ;; body (new_out, new_err))
            (set_streams old_out old_err) st.

(** Concrete states for the runs below. *)
Definition home : FileSystem := mkFS "/home/user" {["/home/user"]}.
Definition console : Streams := mkStreams 0 1 (<[0%nat := ""]> (<[1%nat := ""]> ∅)).

End TestUtils.


(** * Properties of the CVaR validation *)

Section CVaRFacts.
Import CVaR.

Lemma is_set_not_None (values : gmap string PyVal) (key : string) :
  is_set values key <-> is_not_None (dict_get values key) = true.
Proof.
  unfold is_set, dict_get. split.
  - intros (v & -> & Hv). destruct v; simpl; congruence.
  - destruct (values !! key) as [v|]; simpl; [|discriminate].
    intros H. exists v. split; [reflexivity|]. destruct v; simpl in H; congruence.
Qed.

Lemma not_set_None (values : gmap string PyVal) (key : string) :
  ~ is_set values key <-> is_not_None (dict_get values key) = false.
Proof.
  rewrite is_set_not_None. destruct (is_not_None _); split; congruence.
Qed.

Lemma mutex_rejects (values : gmap string PyVal) :
  both_or_neither values ->
  validate_mutex_nreals_percentile values = inl mutex_message.
Proof.
  unfold both_or_neither, validate_mutex_nreals_percentile.
  rewrite !not_set_None, !is_set_not_None.
  intros [[-> ->] | [-> ->]]; reflexivity.
Qed.

Lemma mutex_accepts (values : gmap string PyVal) :
  exactly_one values ->
  validate_mutex_nreals_percentile values = inr values.
Proof.
  unfold exactly_one, validate_mutex_nreals_percentile.
  rewrite !not_set_None, !is_set_not_None.
  intros [[-> ->] | [-> ->]]; reflexivity.
Qed.

Lemma mutex_outcome (values : gmap string PyVal) :
  (both_or_neither values /\ validate_mutex_nreals_percentile values = inl mutex_message) \/
  (exactly_one values /\ validate_mutex_nreals_percentile values = inr values).
Proof.
  unfold both_or_neither, exactly_one, validate_mutex_nreals_percentile.
  rewrite !not_set_None, !is_set_not_None.
  destruct (is_not_None (dict_get values "number_of_realizations")),
           (is_not_None (dict_get values "percentile")); simpl; intuition congruence.
Qed.

Lemma exactly_one_not_both_or_neither (values : gmap string PyVal) :
  exactly_one values -> ~ both_or_neither values.
Proof. unfold exactly_one, both_or_neither. tauto. Qed.

Lemma model_validate_rejected (values : gmap string PyVal) :
  validate_mutex_nreals_percentile values = inl mutex_message ->
  model_validate values = inl [mutex_error].
Proof. unfold model_validate. intros ->. reflexivity. Qed.

Lemma model_validate_passed (values : gmap string PyVal) :
  validate_mutex_nreals_percentile values = inr values ->
  (field_violations values = [] /\ exists cfg, model_validate values = inr cfg) \/
  (field_violations values <> [] /\ model_validate values = inl (field_violations values)).
Proof.
  unfold model_validate. intros ->. unfold field_violations.
  destruct (validate_number_of_realizations _) as [e1|n];
    destruct (validate_percentile _) as [e2|p];
    destruct (extra_keys values) as [|k ks]; simpl;
    first [ left; split; [reflexivity | eexists; reflexivity]
          | right; split; [discriminate | reflexivity] ].
Qed.

Lemma extra_keys_spec (values : gmap string PyVal) (k : string) :
  k ∈ extra_keys values <-> is_Some (values !! k) /\ k ∉ field_names.
Proof.
  unfold extra_keys. rewrite list_elem_of_filter, list_elem_of_fmap.
  split.
  - intros [Hk ([k' v] & -> & Hin)]. apply elem_of_map_to_list in Hin.
    simpl in *. split; [exists v; exact Hin | exact Hk].
  - intros [[v Hv] Hk]. split; [exact Hk|].
    exists (k, v). split; [reflexivity|]. apply elem_of_map_to_list. exact Hv.
Qed.

Lemma percentile_check_spec (v : PyVal) (e : ErrorType) :
  validate_percentile v = inl e <->
  exists q, as_number v = Some q /\
    ((q < 0)%Q /\ e = greater_than_equal 0 \/ (1 < q)%Q /\ e = less_than_equal 1).
Proof.
  assert (Hcheck : forall q,
    (if negb (Qle_bool 0 q) then inl (greater_than_equal 0)
     else if negb (Qle_bool q 1) then inl (less_than_equal 1)
     else inr (Some q)) = (inl e : ErrorType + option Q) <->
    ((q < 0)%Q /\ e = greater_than_equal 0 \/ (1 < q)%Q /\ e = less_than_equal 1)).
  { intros q.
    destruct (Qle_bool 0 q) eqn:H0; simpl.
    - apply Qle_bool_iff in H0.
      destruct (Qle_bool q 1) eqn:H1; simpl.
      + apply Qle_bool_iff in H1. split; [discriminate|].
        intros [[Hlt _] | [Hlt _]]; exfalso.
        * apply (Qlt_not_le _ _ Hlt H0).
        * apply (Qlt_not_le _ _ Hlt H1).
      + assert (1 < q)%Q.
        { apply Qnot_le_lt. intros Hle. apply Qle_bool_iff in Hle. congruence. }
        split.
        * intros [= <-]. right. split; [assumption | reflexivity].
        * intros [[Hlt _] | [_ ->]]; [|reflexivity].
          exfalso. apply (Qlt_not_le _ _ Hlt H0).
    - assert (q < 0)%Q.
      { apply Qnot_le_lt. intros Hle. apply Qle_bool_iff in Hle. congruence. }
      split.
      + intros [= <-]. left. split; [assumption | reflexivity].
      + intros [[_ ->] | [Hlt _]]; [reflexivity|].
        exfalso. apply (Qlt_not_le 1 q Hlt). apply Qlt_le_weak.
        apply Qlt_trans with 0%Q; [assumption | reflexivity]. }
  destruct v as [|z|q]; simpl.
  - split; [discriminate | intros (q & [=] & _)].
  - rewrite Hcheck. split.
    + intros H. exists (inject_Z z). split; [reflexivity | exact H].
    + intros (q & [= <-] & H). exact H.
  - rewrite Hcheck. split.
    + intros H. exists q. split; [reflexivity | exact H].
    + intros (q' & [= <-] & H). exact H.
Qed.

Lemma nreals_check_spec (values : gmap string PyVal) (e : ErrorType) :
  validate_number_of_realizations (dict_get values "number_of_realizations") = inl e <->
  exists q, values !! "number_of_realizations" = Some (PyFloat q) /\
            is_integral q = false /\ e = int_from_float.
Proof.
  unfold dict_get.
  destruct (values !! "number_of_realizations") as [[|z|q]|]; simpl;
    try (split; [discriminate | intros (q' & [=] & _)]).
  destruct (is_integral q) eqn:Hq.
  - split; [discriminate|]. intros (q' & [= <-] & Hq' & _). congruence.
  - split.
    + intros [= <-]. exists q. auto.
    + intros (q' & [= <-] & _ & ->). reflexivity.
Qed.

Lemma field_error_spec {A} (name : string) (r : ErrorType + A) (e : ErrorDetails) :
  e ∈ field_error name r <-> exists t, r = inl t /\ e = mkError [name] t.
Proof.
  destruct r as [t|a]; simpl.
  - rewrite list_elem_of_singleton. split.
    + intros ->. exists t. auto.
    + intros (t' & [= <-] & ->). reflexivity.
  - rewrite elem_of_nil. split; [tauto | intros (t & [=] & _)].
Qed.

(** The field-level pass finds exactly the violations other than the
    mutual-exclusion one. *)
Lemma field_violations_spec (values : gmap string PyVal) (e : ErrorDetails) :
  e ∈ field_violations values <-> Violation values e /\ e <> mutex_error.
Proof.
  unfold field_violations.
  rewrite !elem_of_app, !field_error_spec, list_elem_of_fmap. split.
  - intros [(t & Ht & ->) | [(t & Ht & ->) | (k & -> & Hk)]].
    + apply nreals_check_spec in Ht as (q & Hq & Hint & ->).
      split; [eapply nreals_not_int; eassumption | discriminate].
    + apply percentile_check_spec in Ht as (q & Hq & [[Hlt ->] | [Hlt ->]]).
      * split; [eapply percentile_below; eassumption | discriminate].
      * split; [eapply percentile_above; eassumption | discriminate].
    + apply extra_keys_spec in Hk as [Hsome Hk].
      split; [apply unknown_key; assumption | discriminate].
  - intros [HV Hne]. destruct HV as [Hm | q Hq Hint | q Hq Hlt | q Hq Hlt | k Hsome Hk].
    + congruence.
    + left. eexists. split; [|reflexivity].
      apply nreals_check_spec. exists q. auto.
    + right; left. eexists. split; [|reflexivity].
      apply percentile_check_spec. exists q. auto.
    + right; left. eexists. split; [|reflexivity].
      apply percentile_check_spec. exists q. auto.
    + right; right. exists k. split; [reflexivity|].
      apply extra_keys_spec. auto.
Qed.

(** [all_violations] is the exhaustive list. *)
Lemma all_violations_spec (values : gmap string PyVal) (e : ErrorDetails) :
  e ∈ all_violations values <-> Violation values e.
Proof.
  unfold all_violations. rewrite elem_of_app, field_violations_spec.
  destruct (mutex_outcome values) as [[Hb ->] | [Hx ->]].
  - rewrite list_elem_of_singleton. fold mutex_error. split.
    + intros [-> | [HV _]]; [apply mutex_violated; exact Hb | exact HV].
    + intros HV. destruct HV; first [left; reflexivity | right; split; [|discriminate]].
      * eapply nreals_not_int; eassumption.
      * eapply percentile_below; eassumption.
      * eapply percentile_above; eassumption.
      * apply unknown_key; assumption.
  - rewrite elem_of_nil. split.
    + intros [[] | [HV _]]. exact HV.
    + intros HV. right. split; [exact HV|].
      destruct HV; try discriminate.
      exfalso. eapply exactly_one_not_both_or_neither; eassumption.
Qed.

Lemma errors_when_mutex_passes (values : gmap string PyVal) :
  exactly_one values ->
  errors_of (model_validate values) = all_violations values.
Proof.
  intros Hx. pose proof (mutex_accepts values Hx) as Hm.
  unfold all_violations. rewrite Hm. simpl.
  destruct (model_validate_passed values Hm) as [[Hnil [cfg ->]] | [_ ->]].
  - rewrite Hnil. reflexivity.
  - reflexivity.
Qed.

Lemma out_of_range (q : Q) : ~ (0 <= q <= 1)%Q -> (q < 0)%Q \/ (1 < q)%Q.
Proof.
  intros H. destruct (Qlt_le_dec q 0) as [Hlt | Hge]; [left; exact Hlt|].
  destruct (Qlt_le_dec 1 q) as [Hlt | Hle]; [right; exact Hlt|].
  exfalso. apply H. split; assumption.
Qed.

(** C1: for every CVaR specification the mutual-exclusion validation
    rejects it when both [number_of_realizations] and [percentile] are set
    and when neither is, and accepts it (hands the values on unchanged) when
    exactly one is set; the model is then built whenever no field-level
    constraint is violated. *)
Theorem cvar_mutex_rejects_both_or_neither_accepts_one (values : gmap string PyVal) :
  (both_or_neither values ->
     validate_mutex_nreals_percentile values = inl mutex_message /\
     model_validate values = inl [mutex_error]) /\
  (exactly_one values ->
     validate_mutex_nreals_percentile values = inr values /\
     (mutex_error ∉ errors_of (model_validate values)) /\
     (field_violations values = [] -> exists cfg, model_validate values = inr cfg)).
Proof.
  split.
  - intros Hb. pose proof (mutex_rejects values Hb) as Hm.
    split; [exact Hm | apply model_validate_rejected; exact Hm].
  - intros Hx. pose proof (mutex_accepts values Hx) as Hm.
    split; [exact Hm|]. split.
    + rewrite errors_when_mutex_passes by exact Hx.
      rewrite all_violations_spec. intros HV.
      inversion HV. eapply exactly_one_not_both_or_neither; eassumption.
    + intros Hnil.
      destruct (model_validate_passed values Hm) as [[_ Hcfg] | [Hne _]];
        [exact Hcfg | contradiction].
Qed.

Lemma cvar_mutex_rejects_both_or_neither_accepts_one_witness :
  model_validate both_set_bad_percentile = inl [mutex_error] /\
  model_validate ∅ = inl [mutex_error] /\
  (exists cfg, model_validate only_nreals = inr cfg) /\
  (exists cfg, model_validate only_percentile = inr cfg).
Proof.
  split; [|split; [|split]].
  - apply (cvar_mutex_rejects_both_or_neither_accepts_one both_set_bad_percentile).
    left. split; [exists (PyInt 1) | exists (PyFloat (5 # 1))];
      (split; [reflexivity | discriminate]).
  - apply (cvar_mutex_rejects_both_or_neither_accepts_one ∅).
    right. split; intros (v & Hv & _); discriminate Hv.
  - apply (cvar_mutex_rejects_both_or_neither_accepts_one only_nreals);
      [|reflexivity].
    left. split.
    + exists (PyInt 3). split; [reflexivity | discriminate].
    + intros (v & Hv & _). discriminate Hv.
  - apply (cvar_mutex_rejects_both_or_neither_accepts_one only_percentile);
      [|reflexivity].
    right. split.
    + intros (v & Hv & _). discriminate Hv.
    + exists (PyFloat (1 # 4)). split; [reflexivity | discriminate].
Defined.

(** C6: the exclusive-or check runs before the field-level validation: when
    both fields are set and the percentile lies outside [0,1], validation
    reports the mutual-exclusion error alone; the range error of the
    percentile, which the field-level pass holds, is not reported. *)
Theorem cvar_mutex_checked_before_percentile_range
    (values : gmap string PyVal) (q : Q) :
  is_set values "number_of_realizations" ->
  as_number (dict_get values "percentile") = Some q ->
  ~ (0 <= q <= 1)%Q ->
  model_validate values = inl [mutex_error] /\
  exists e, (e = greater_than_equal 0 \/ e = less_than_equal 1) /\
            mkError ["percentile"] e ∈ field_violations values /\
            mkError ["percentile"] e ∉ errors_of (model_validate values).
Proof.
  intros Hn Hq Hrange.
  assert (Hp : is_set values "percentile").
  { apply is_set_not_None. destruct (dict_get values "percentile"); [discriminate Hq | reflexivity..]. }
  assert (Hrej : model_validate values = inl [mutex_error]).
  { apply model_validate_rejected, mutex_rejects. left. split; assumption. }
  split; [exact Hrej|].
  rewrite Hrej. simpl.
  destruct (out_of_range q Hrange) as [Hlt | Hlt].
  - exists (greater_than_equal 0). split; [left; reflexivity|]. split.
    + apply field_violations_spec. split; [|discriminate].
      eapply percentile_below; eassumption.
    + rewrite list_elem_of_singleton. discriminate.
  - exists (less_than_equal 1). split; [right; reflexivity|]. split.
    + apply field_violations_spec. split; [|discriminate].
      eapply percentile_above; eassumption.
    + rewrite list_elem_of_singleton. discriminate.
Qed.

Lemma cvar_mutex_checked_before_percentile_range_witness :
  model_validate both_set_bad_percentile = inl [mutex_error] /\
  exists e, (e = greater_than_equal 0 \/ e = less_than_equal 1) /\
            mkError ["percentile"] e ∈ field_violations both_set_bad_percentile /\
            mkError ["percentile"] e ∉ errors_of (model_validate both_set_bad_percentile).
Proof.
  apply (cvar_mutex_checked_before_percentile_range both_set_bad_percentile (5 # 1)).
  - exists (PyInt 1). split; [reflexivity | discriminate].
  - reflexivity.
  - intros [_ H]. vm_compute in H. apply H. reflexivity.
Defined.

(** C3, as the specification states it, fails: with both fields set and a
    percentile of 5 the section violates the range constraint as well, yet
    validation returns the mutual-exclusion error only. *)
Lemma cvar_reports_only_first_violation :
  Violation both_set_bad_percentile (mkError ["percentile"] (less_than_equal 1)) /\
  model_validate both_set_bad_percentile = inl [mutex_error] /\
  (mkError ["percentile"] (less_than_equal 1)
     ∉ errors_of (model_validate both_set_bad_percentile)).
Proof.
  split; [|split].
  - apply percentile_above with (q := 5 # 1); reflexivity.
  - reflexivity.
  - change (errors_of (model_validate both_set_bad_percentile)) with [mutex_error].
    rewrite list_elem_of_singleton. discriminate.
Qed.

(** C3, amended: when the mutual-exclusion check fails, validation reports
    that error alone; when it passes, validation reports every violation of
    the section (each field error and each unknown key) and nothing else,
    and it returns the model exactly when there is none. *)
Theorem cvar_reports_mutex_alone_else_every_violation (values : gmap string PyVal) :
  (both_or_neither values -> errors_of (model_validate values) = [mutex_error]) /\
  (exactly_one values ->
     (forall e, Violation values e <-> e ∈ errors_of (model_validate values)) /\
     ((exists cfg, model_validate values = inr cfg) <-> forall e, ~ Violation values e)).
Proof.
  split.
  - intros Hb. rewrite model_validate_rejected by (apply mutex_rejects; exact Hb).
    reflexivity.
  - intros Hx. pose proof (errors_when_mutex_passes values Hx) as Herr.
    split.
    + intros e. rewrite Herr. symmetry. apply all_violations_spec.
    + pose proof (mutex_accepts values Hx) as Hm. split.
      * intros [cfg Hcfg] e HV. apply all_violations_spec in HV.
        rewrite <- Herr, Hcfg in HV. simpl in HV. apply elem_of_nil in HV. exact HV.
      * intros Hnone.
        destruct (model_validate_passed values Hm) as [[_ Hcfg] | [Hne _]]; [exact Hcfg|].
        exfalso. destruct (field_violations values) as [|e es] eqn:Hfv; [congruence|].
        apply (Hnone e). apply (field_violations_spec values e).
        rewrite Hfv. apply elem_of_cons. left. reflexivity.
Qed.

Lemma cvar_reports_mutex_alone_else_every_violation_witness :
  errors_of (model_validate both_set_bad_percentile) = [mutex_error] /\
  (exists cfg, model_validate only_nreals = inr cfg).
Proof.
  split.
  - apply (cvar_reports_mutex_alone_else_every_violation both_set_bad_percentile).
    left. split; [exists (PyInt 1) | exists (PyFloat (5 # 1))];
      (split; [reflexivity | discriminate]).
  - assert (Hx : exactly_one only_nreals).
    { left. split.
      - exists (PyInt 3). split; [reflexivity | discriminate].
      - intros (v & Hv & _). discriminate Hv. }
    apply (cvar_reports_mutex_alone_else_every_violation only_nreals); [exact Hx|].
    intros e HV. apply all_violations_spec in HV.
    vm_compute in HV. apply elem_of_nil in HV. exact HV.
Defined.

End CVaRFacts.

(** * Properties of the string helpers *)

Section StringFacts.

Lemma prefix_append (s t : string) : String.prefix s (s +:+ t) = true.
Proof.
  induction s as [|a s IH]; simpl.
  - destruct t; reflexivity.
  - destruct (ascii_dec a a) as [_ | Hne]; [exact IH | contradiction].
Qed.

Lemma contains_unfold (needle hay : string) :
  contains needle hay =
  String.prefix needle hay ||
  match hay with
  | "" => false
  | String _ hay' => contains needle hay'
  end.
Proof. destruct hay; reflexivity. Qed.

(** A text occurs in whatever surrounds it. *)
Lemma contains_infix (pre s post : string) :
  contains s (pre +:+ s +:+ post) = true.
Proof.
  induction pre as [|c pre IH].
  - change ("" +:+ s +:+ post) with (s +:+ post).
    rewrite contains_unfold, prefix_append. reflexivity.
  - change (String c pre +:+ s +:+ post) with (String c (pre +:+ s +:+ post)).
    rewrite contains_unfold, IH. apply orb_true_r.
Qed.

Lemma contains_self (s : string) : contains s s = true.
Proof.
  rewrite contains_unfold.
  replace (String.prefix s s) with (String.prefix s (s +:+ "")).
  - rewrite prefix_append. reflexivity.
  - f_equal. induction s as [|a s IH]; [reflexivity|].
    change (String a s +:+ "") with (String a (s +:+ "")). rewrite IH. reflexivity.
Qed.

Lemma append_assoc (a b c : string) : (a +:+ b) +:+ c = a +:+ b +:+ c.
Proof.
  induction a as [|x a IH]; [reflexivity|].
  change ((String x a +:+ b) +:+ c) with (String x ((a +:+ b) +:+ c)).
  rewrite IH. reflexivity.
Qed.

End StringFacts.

(** * Properties of the objective validation and translation *)

Section ObjectivesFacts.
Import Objectives.

Lemma has_weight_true (o : ObjectiveFunction) : has_weight o = true <-> weight o <> None.
Proof. unfold has_weight. destruct (weight o); split; congruence. Qed.

Lemma has_weight_false (o : ObjectiveFunction) : negb (has_weight o) = true <-> weight o = None.
Proof. unfold has_weight. destruct (weight o); simpl; split; congruence. Qed.

Lemma all_or_none_check (objs : list ObjectiveFunction) :
  all_or_none objs <->
  forallb has_weight objs || forallb (fun o => negb (has_weight o)) objs = true.
Proof.
  unfold all_or_none. rewrite orb_true_iff, !forallb_forall.
  split; intros [H | H]; [left | right | left | right]; intros o Ho.
  - apply has_weight_true, H, list_elem_of_In, Ho.
  - apply has_weight_false, H, list_elem_of_In, Ho.
  - apply has_weight_true, H, list_elem_of_In, Ho.
  - apply has_weight_false, H, list_elem_of_In, Ho.
Qed.

Lemma some_not_all_check (objs : list ObjectiveFunction) :
  some_not_all objs ->
  forallb has_weight objs || forallb (fun o => negb (has_weight o)) objs = false.
Proof.
  intros [(o1 & Ho1 & Hw1) (o2 & Ho2 & Hw2)].
  destruct (_ || _) eqn:Hb; [|reflexivity].
  apply all_or_none_check in Hb as [Hall | Hnone].
  - exfalso. exact (Hall o2 Ho2 Hw2).
  - exfalso. exact (Hw1 (Hnone o1 Ho1)).
Qed.

Lemma per_objective_messages (objs : list ObjectiveFunction) (m : string) :
  In m (flat_map (fun o => validate_weight o ++ validate_normalization o) objs) ->
  m = positive_message \/ m = normalization_message.
Proof.
  rewrite in_flat_map. intros (o & _ & Hm). apply in_app_or in Hm as [Hm | Hm].
  - unfold validate_weight in Hm. destruct (weight o) as [w|]; [|contradiction].
    destruct (Qle_bool w 0); simpl in Hm; intuition.
  - unfold validate_normalization in Hm. destruct (normalization o) as [n|]; [|contradiction].
    destruct (Qeq_bool n 0); simpl in Hm; intuition.
Qed.

(** C2, as the specification states it, fails on the message: for the list
    of the test, where only the first objective declares a weight, the one
    error reported is the text the test expects, and the text quoted by the
    specification occurs in no reported message. *)
Lemma weights_error_text_differs :
  some_not_all partial_weights /\
  lint_objectives partial_weights = [weight_message] /\
  has_error (lint_objectives partial_weights) quoted_weight_message = false.
Proof.
  split; [|split]; [|reflexivity..].
  split.
  - exists (mkObjective "distance_p" (Some 1%Q) None).
    split; [apply elem_of_cons; left; reflexivity | discriminate].
  - exists (mkObjective "distance_q" None None).
    split; [apply elem_of_cons; right; apply elem_of_cons; left|]; reflexivity.
Qed.

(** C2, amended: a list in which some but not all objectives declare a
    weight is rejected with the message "Weight should be given either for
    all of the objectives or for none of them"; a list where every objective
    declares a weight, or none does, passes this check and that message is
    not reported. *)
Theorem weights_all_or_none_checked (objs : list ObjectiveFunction) :
  (some_not_all objs ->
     validate_weights_all_or_none objs = [weight_message] /\
     has_error (lint_objectives objs) weight_message = true) /\
  (all_or_none objs ->
     validate_weights_all_or_none objs = [] /\
     ~ In weight_message (lint_objectives objs)).
Proof.
  unfold lint_objectives, validate_weights_all_or_none. split.
  - intros H. rewrite (some_not_all_check objs H). split; [reflexivity|].
    unfold has_error. apply existsb_exists. exists weight_message.
    split; [apply in_or_app; right; left; reflexivity | apply contains_self].
  - intros H. apply all_or_none_check in H. rewrite H. split; [reflexivity|].
    rewrite app_nil_r. intros Hin.
    apply per_objective_messages in Hin as [Hm | Hm]; discriminate Hm.
Qed.

Lemma weights_all_or_none_checked_witness :
  has_error (lint_objectives partial_weights) weight_message = true /\
  ~ In weight_message (lint_objectives test_objectives).
Proof.
  split.
  - apply (weights_all_or_none_checked partial_weights). split.
    + exists (mkObjective "distance_p" (Some 1%Q) None).
      split; [apply elem_of_cons; left; reflexivity | discriminate].
    + exists (mkObjective "distance_q" None None).
      split; [apply elem_of_cons; right; apply elem_of_cons; left|]; reflexivity.
  - apply (weights_all_or_none_checked test_objectives).
    left. intros o Ho.
    apply elem_of_cons in Ho as [-> | Ho]; [discriminate|].
    apply elem_of_cons in Ho as [-> | Ho]; [discriminate|].
    apply elem_of_nil in Ho. contradiction.
Defined.

Lemma lint_clean_weight (objs : list ObjectiveFunction) (o : ObjectiveFunction) :
  lint_objectives objs = [] -> In o objs ->
  validate_weight o = [] /\ validate_normalization o = [].
Proof.
  unfold lint_objectives. intros H Ho.
  apply app_eq_nil in H as [H _].
  assert (Hnone : forall m, ~ In m (validate_weight o ++ validate_normalization o)).
  { intros m Hm.
    assert (Hin : In m (flat_map (fun o => validate_weight o ++ validate_normalization o) objs)).
    { apply in_flat_map. exists o. split; assumption. }
    rewrite H in Hin. exact Hin. }
  destruct (validate_weight o ++ validate_normalization o) as [|m ms] eqn:Happ.
  - apply app_eq_nil in Happ. exact Happ.
  - exfalso. apply (Hnone m). left. reflexivity.
Qed.

(** C7: a declared normalization equal to zero is rejected, in whatever
    list the objective stands; any nonzero normalization, negative ones
    included, is accepted: the check reports nothing, and the objective
    alone lints clean when its weight is absent or positive. *)
Theorem normalization_zero_rejected_nonzero_accepted (o : ObjectiveFunction) (n : Q) :
  normalization o = Some n ->
  ((n == 0)%Q ->
     validate_normalization o = [normalization_message] /\
     forall objs, In o objs -> In normalization_message (lint_objectives objs)) /\
  (~ (n == 0)%Q ->
     validate_normalization o = [] /\
     ((forall w, weight o = Some w -> (0 < w)%Q) -> lint_objectives [o] = [])).
Proof.
  intros Hn. unfold validate_normalization. rewrite Hn. split.
  - intros H0. apply Qeq_bool_iff in H0. rewrite H0. split; [reflexivity|].
    intros objs Ho. unfold lint_objectives. apply in_or_app. left.
    apply in_flat_map. exists o. split; [exact Ho|].
    apply in_or_app. right. unfold validate_normalization. rewrite Hn, H0. left. reflexivity.
  - intros Hne. destruct (Qeq_bool n 0) eqn:Hb.
    + exfalso. apply Hne, Qeq_bool_iff, Hb.
    + split; [reflexivity|]. intros Hw.
      unfold lint_objectives, validate_weights_all_or_none, validate_weight,
        validate_normalization, has_weight. simpl. rewrite Hn, Hb.
      destruct (weight o) as [w|]; simpl; [|reflexivity].
      destruct (Qle_bool w 0) eqn:Hle; [|reflexivity].
      exfalso. apply Qle_bool_iff in Hle. apply (Qlt_not_le 0 w); [apply Hw; reflexivity | exact Hle].
Qed.

Lemma normalization_zero_rejected_nonzero_accepted_witness :
  In normalization_message
     (lint_objectives [mkObjective "distance_p" (Some 1%Q) None;
                       mkObjective " test_obj" (Some 1%Q) (Some 0%Q)]) /\
  lint_objectives [mkObjective " test_obj" (Some 1%Q) (Some (-125 # 1))] = [].
Proof.
  split.
  - apply (normalization_zero_rejected_nonzero_accepted
             (mkObjective " test_obj" (Some 1%Q) (Some 0%Q)) 0%Q);
      [reflexivity | reflexivity | right; left; reflexivity].
  - apply (normalization_zero_rejected_nonzero_accepted
             (mkObjective " test_obj" (Some 1%Q) (Some (-125 # 1))) (-125 # 1));
      [reflexivity | discriminate |].
    intros w [= <-]. reflexivity.
Defined.

Lemma declared_weights_lookup (objs : list ObjectiveFunction) (i : nat)
    (o : ObjectiveFunction) (w : Q) :
  (forall o', o' ∈ objs -> weight o' <> None) ->
  objs !! i = Some o -> weight o = Some w ->
  declared_weights objs !! i = Some w.
Proof.
  unfold declared_weights. revert i.
  induction objs as [|o' objs IH]; intros i Hall Hi Hw; [discriminate Hi|].
  assert (Hsome : weight o' <> None) by (apply Hall, elem_of_cons; left; reflexivity).
  assert (Hrest : forall x, x ∈ objs -> weight x <> None)
    by (intros x Hx; apply Hall, elem_of_cons; right; exact Hx).
  simpl. destruct (weight o') as [w'|] eqn:Hw'; [|congruence].
  destruct i as [|i]; simpl in *.
  - injection Hi as ->. congruence.
  - apply IH; assumption.
Qed.

Lemma declared_weights_length (objs : list ObjectiveFunction) :
  (forall o', o' ∈ objs -> weight o' <> None) ->
  length (declared_weights objs) = length objs.
Proof.
  unfold declared_weights. induction objs as [|o' objs IH]; intros Hall; [reflexivity|].
  assert (Hsome : weight o' <> None) by (apply Hall, elem_of_cons; left; reflexivity).
  simpl. destruct (weight o') as [w'|]; [|congruence].
  simpl. f_equal. apply IH. intros x Hx. apply Hall, elem_of_cons. right. exact Hx.
Qed.

Lemma declared_weights_positive (objs : list ObjectiveFunction) (w : Q) :
  lint_objectives objs = [] -> In w (declared_weights objs) -> (0 < w)%Q.
Proof.
  intros Hlint Hw. unfold declared_weights in Hw.
  apply list_elem_of_In, list_elem_of_omap in Hw as (o & Ho & Hwo).
  apply list_elem_of_In in Ho.
  destruct (lint_clean_weight objs o Hlint Ho) as [Hvw _].
  unfold validate_weight in Hvw. rewrite Hwo in Hvw.
  destruct (Qle_bool w 0) eqn:Hle; [discriminate Hvw|].
  apply Qnot_le_lt. intros H. apply Qle_bool_iff in H. congruence.
Qed.

Lemma fold_left_Qplus_le (ws : list Q) (acc : Q) :
  (forall w, In w ws -> (0 < w)%Q) -> (acc <= fold_left Qplus ws acc)%Q.
Proof.
  revert acc. induction ws as [|w ws IH]; intros acc Hpos; simpl.
  - apply Qle_refl.
  - apply Qle_trans with (acc + w)%Q.
    + rewrite <- (Qplus_0_r acc) at 1. apply Qplus_le_r, Qlt_le_weak, Hpos. left. reflexivity.
    + apply IH. intros x Hx. apply Hpos. right. exact Hx.
Qed.

Lemma total_weight_positive (ws : list Q) :
  ws <> [] -> (forall w, In w ws -> (0 < w)%Q) -> (0 < total_weight ws)%Q.
Proof.
  unfold total_weight. destruct ws as [|w ws]; [congruence|]. intros _ Hpos. simpl.
  apply Qlt_le_trans with (0 + w)%Q.
  - rewrite Qplus_0_l. apply Hpos. left. reflexivity.
  - apply fold_left_Qplus_le. intros x Hx. apply Hpos. right. exact Hx.
Qed.

Lemma declared_weights_all (objs : list ObjectiveFunction) :
  (forall o', o' ∈ objs -> weight o' <> None) ->
  Forall2 (fun o' w' => weight o' = Some w') objs (declared_weights objs).
Proof.
  unfold declared_weights. induction objs as [|o' objs IH]; intros Hall; [constructor|].
  assert (Hsome : weight o' <> None) by (apply Hall, elem_of_cons; left; reflexivity).
  simpl. destruct (weight o') as [w'|] eqn:Hw'; [|congruence].
  constructor; [exact Hw'|].
  apply IH. intros x Hx. apply Hall, elem_of_cons. right. exact Hx.
Qed.

Lemma sums_to_foldr (ws : list Q) : sums_to ws (foldr Qplus 0%Q ws).
Proof. induction ws as [|w ws IH]; simpl; constructor. exact IH. Qed.

Lemma fold_left_Qplus_foldr (ws : list Q) (acc : Q) :
  (fold_left Qplus ws acc == acc + foldr Qplus 0 ws)%Q.
Proof.
  revert acc. induction ws as [|w ws IH]; intros acc; simpl.
  - symmetry. apply Qplus_0_r.
  - rewrite IH. symmetry. apply Qplus_assoc.
Qed.

Lemma total_weight_is_sum (ws : list Q) : (total_weight ws == foldr Qplus 0 ws)%Q.
Proof. unfold total_weight. rewrite fold_left_Qplus_foldr. apply Qplus_0_l. Qed.

Lemma foldr_Qplus_scaled (ws : list Q) (divisor : Q) :
  (foldr Qplus 0 ((fun w => w / divisor) <$> ws) == foldr Qplus 0 ws / divisor)%Q.
Proof.
  induction ws as [|w ws IH]; simpl.
  - unfold Qdiv. symmetry. apply Qmult_0_l.
  - rewrite IH. unfold Qdiv. symmetry. apply Qmult_plus_distr_l.
Qed.

(** C4: for a validated list in which every objective declares a weight,
    translation gives objective [i] the weight [w_i / total], where [total]
    is the sum of the weights the objectives declare (it is positive), at
    the same index as in the input and next to its name; the output
    weights add up to 1; and the scale of an objective is its declared
    normalization when there is one. *)
Theorem everest2ropt_normalizes_weights
    (objs : list ObjectiveFunction) (i : nat) (o : ObjectiveFunction) (w : Q) :
  lint_objectives objs = [] ->
  (forall o', o' ∈ objs -> weight o' <> None) ->
  objs !! i = Some o ->
  weight o = Some w ->
  names (everest2ropt objs) !! i = Some (name o) /\
  (exists ws total out,
     Forall2 (fun o' w' => weight o' = Some w') objs ws /\
     sums_to ws total /\
     (0 < total)%Q /\
     weights (everest2ropt objs) !! i = Some out /\
     (out == w / total)%Q) /\
  (exists one, sums_to (weights (everest2ropt objs)) one /\ (one == 1)%Q) /\
  length (weights (everest2ropt objs)) = length objs /\
  (forall n, normalization o = Some n -> scales (everest2ropt objs) !! i = Some n).
Proof.
  intros Hlint Hall Hi Hw.
  assert (Hb : forallb has_weight objs = true).
  { apply forallb_forall. intros x Hx. apply has_weight_true, Hall, list_elem_of_In, Hx. }
  pose proof (declared_weights_lookup objs i o w Hall Hi Hw) as Hdw.
  assert (Hpos : (0 < total_weight (declared_weights objs))%Q).
  { apply total_weight_positive.
    - intros Hnil. rewrite Hnil in Hdw. destruct i; discriminate Hdw.
    - intros x Hx. eapply declared_weights_positive; eassumption. }
  pose proof (total_weight_is_sum (declared_weights objs)) as Hsum.
  unfold everest2ropt. simpl. rewrite Hb.
  rewrite !list_lookup_fmap, Hi, Hdw. simpl.
  split; [reflexivity|]. split; [|split; [|split]].
  - exists (declared_weights objs), (foldr Qplus 0%Q (declared_weights objs)),
      (w / total_weight (declared_weights objs))%Q.
    split; [apply declared_weights_all; exact Hall|].
    split; [apply sums_to_foldr|].
    split; [rewrite <- Hsum; exact Hpos|].
    split; [reflexivity|]. rewrite Hsum. reflexivity.
  - eexists. split; [apply sums_to_foldr|].
    rewrite foldr_Qplus_scaled, <- Hsum.
    unfold Qdiv. apply Qmult_inv_r.
    intros Hzero. rewrite Hzero in Hpos. discriminate Hpos.
  - rewrite length_fmap. apply declared_weights_length, Hall.
  - intros n ->. reflexivity.
Qed.

Lemma everest2ropt_normalizes_weights_witness :
  (exists out, weights (everest2ropt scenario_objectives) !! 0%nat = Some out /\
               (out == 1 # 4)%Q) /\
  (exists out, weights (everest2ropt scenario_objectives) !! 1%nat = Some out /\
               (out == 3 # 4)%Q) /\
  (exists out, weights (everest2ropt test_objectives) !! 1%nat = Some out /\
               (out == (31 # 10) / (443 # 100))%Q) /\
  scales (everest2ropt scenario_objectives) !! 0%nat = Some 1%Q.
Proof.
  assert (Hscenario : forall o', o' ∈ scenario_objectives -> weight o' <> None).
  { intros o Ho.
    apply elem_of_cons in Ho as [-> | Ho]; [discriminate|].
    apply elem_of_cons in Ho as [-> | Ho]; [discriminate|].
    apply elem_of_nil in Ho. contradiction. }
  assert (Htest : forall o', o' ∈ test_objectives -> weight o' <> None).
  { intros o Ho.
    apply elem_of_cons in Ho as [-> | Ho]; [discriminate|].
    apply elem_of_cons in Ho as [-> | Ho]; [discriminate|].
    apply elem_of_nil in Ho. contradiction. }
  assert (Hpair : forall (objs : list ObjectiveFunction) (o1 o2 : ObjectiveFunction)
                    (w1 w2 : Q) (ws : list Q) (total : Q),
            objs = [o1; o2] -> weight o1 = Some w1 -> weight o2 = Some w2 ->
            Forall2 (fun o' w' => weight o' = Some w') objs ws ->
            sums_to ws total -> total = (w1 + (w2 + 0))%Q).
  { intros objs o1 o2 w1 w2 ws total -> H1 H2 Hws Hsum.
    inversion Hws as [|? x1 ? ws1 Hx1 Hws1]; subst.
    inversion Hws1 as [|? x2 ? ws2 Hx2 Hws2]; subst.
    inversion Hws2; subst.
    inversion Hsum as [|? ? t1 Hsum1]; subst.
    inversion Hsum1 as [|? ? t2 Hsum2]; subst.
    inversion Hsum2; subst. congruence. }
  split; [|split; [|split]].
  - destruct (everest2ropt_normalizes_weights scenario_objectives 0%nat
                (mkObjective "first" (Some 1%Q) (Some 1%Q)) 1%Q)
      as (_ & (ws & total & out & Hws & Hsum & _ & Hout & Heq) & _);
      [reflexivity | exact Hscenario | reflexivity | reflexivity |].
    exists out. split; [exact Hout|].
    rewrite Heq, (Hpair scenario_objectives
                    (mkObjective "first" (Some 1%Q) (Some 1%Q))
                    (mkObjective "second" (Some 3%Q) None)
                    1%Q 3%Q ws total eq_refl eq_refl eq_refl Hws Hsum).
    reflexivity.
  - destruct (everest2ropt_normalizes_weights scenario_objectives 1%nat
                (mkObjective "second" (Some 3%Q) None) 3%Q)
      as (_ & (ws & total & out & Hws & Hsum & _ & Hout & Heq) & _);
      [reflexivity | exact Hscenario | reflexivity | reflexivity |].
    exists out. split; [exact Hout|].
    rewrite Heq, (Hpair scenario_objectives
                    (mkObjective "first" (Some 1%Q) (Some 1%Q))
                    (mkObjective "second" (Some 3%Q) None)
                    1%Q 3%Q ws total eq_refl eq_refl eq_refl Hws Hsum).
    reflexivity.
  - destruct (everest2ropt_normalizes_weights test_objectives 1%nat
                (mkObjective "distance_q" (Some (31 # 10)) None) (31 # 10))
      as (_ & (ws & total & out & Hws & Hsum & _ & Hout & Heq) & _);
      [reflexivity | exact Htest | reflexivity | reflexivity |].
    exists out. split; [exact Hout|].
    rewrite Heq, (Hpair test_objectives
                    (mkObjective "distance_p" (Some (133 # 100)) (Some 1%Q))
                    (mkObjective "distance_q" (Some (31 # 10)) None)
                    (133 # 100) (31 # 10) ws total eq_refl eq_refl eq_refl Hws Hsum).
    reflexivity.
  - destruct (everest2ropt_normalizes_weights scenario_objectives 0%nat
                (mkObjective "first" (Some 1%Q) (Some 1%Q)) 1%Q)
      as (_ & _ & _ & _ & Hscale);
      [reflexivity | exact Hscenario | reflexivity | reflexivity |].
    apply Hscale. reflexivity.
Defined.

(** The assertions of [test_config_multi_objectives], replayed step by
    step (the step without a name is structural and left out). *)
Example test_config_multi_objectives :
  let p := mkObjective "distance_p" (Some 1%Q) None in
  let q := mkObjective "distance_q" (Some 3%Q) None in
  let extra w n := mkObjective " test_obj" (Some w) (Some n) in
  has_error (lint_objectives partial_weights) weight_message = true /\
  length (lint_objectives [p; q]) = 0%nat /\
  has_error (lint_objectives [p; q; extra (-3 # 10) 1%Q]) positive_message = true /\
  has_error (lint_objectives [p; q; extra 0%Q 1%Q]) positive_message = true /\
  has_error (lint_objectives [p; q; extra 1%Q 0%Q]) normalization_message = true /\
  length (lint_objectives [p; q; extra 1%Q (-125 # 1)]) = 0%nat.
Proof. repeat split; reflexivity. Qed.

(** The assertions of [test_multi_objectives2ropt]. *)
Example test_multi_objectives2ropt :
  let norm := ((133 # 100) + (31 # 10))%Q in
  length (lint_objectives test_objectives) = 0%nat /\
  names (everest2ropt test_objectives) = ["distance_p"; "distance_q"] /\
  Forall2 Qeq (weights (everest2ropt test_objectives))
    [((133 # 100) / norm)%Q; ((31 # 10) / norm)%Q] /\
  Forall2 Qeq (weights (everest2ropt test_objectives))
    [((133 # 100) / (443 # 100))%Q; ((31 # 10) / (443 # 100))%Q] /\
  scales (everest2ropt test_objectives) !! 0%nat = Some 1%Q.
Proof.
  repeat split; try reflexivity; repeat constructor; reflexivity.
Qed.

End ObjectivesFacts.

(** * Properties of [parse_forward_model_file] *)

Section ForwardModelsFacts.
Import ForwardModels.

Variable str_format : string -> string -> Exn + string.

(** X2: a ValueError of the hook is re-raised as a ValueError whose message
    is the template formatted with the text of the original error. *)
Lemma parse_reraises_value_error {T} (m message text : string) :
  str_format message m = inr text ->
  parse_forward_model_file (T := T) str_format (RaisesValueError m) message
  = inl (ValueError text).
Proof.
  intros H. unfold parse_forward_model_file, raise_formatted. rewrite H. reflexivity.
Qed.

Lemma describe_all_located (errors : list ErrorDict) :
  Forall (fun error => loc error <> []) errors ->
  exists ds,
    describe_all errors = inr ds /\
    Forall2 (fun error d =>
               exists l0 ls,
                 loc error = l0 :: ls /\
                 d = str_of_loc l0 +:+ ": " +:+ input error +:+ " -> " +:+ msg error)
            errors ds.
Proof.
  induction 1 as [|error errors Hloc _ (ds & IH & Hlines)].
  - exists []. split; [reflexivity | constructor].
  - simpl. unfold describe. destruct (loc error) as [|l0 ls] eqn:Hl0; [congruence|].
    rewrite IH. eexists. split; [reflexivity|].
    constructor; [|exact Hlines]. exists l0, ls. split; [exact Hl0 | reflexivity].
Qed.

(** X3: a ValidationError all of whose entries carry a location is re-raised
    as a ValueError whose message is the template formatted with one line
    per entry, in order, each of the form "loc[0]: input -> msg", the lines
    joined by a newline and two tabs. *)
Lemma parse_reraises_located_validation_error {T}
    (errors : list ErrorDict) (message : string) :
  Forall (fun error => loc error <> []) errors ->
  exists lines,
    Forall2 (fun error line =>
               exists l0 ls,
                 loc error = l0 :: ls /\
                 line = str_of_loc l0 +:+ ": " +:+ input error +:+ " -> " +:+ msg error)
            errors lines /\
    forall text, str_format message (join (nl +:+ tab +:+ tab) lines) = inr text ->
      parse_forward_model_file (T := T) str_format (RaisesValidationError errors) message
      = inl (ValueError text).
Proof.
  intros Hloc. destruct (describe_all_located errors Hloc) as (ds & Hds & Hlines).
  exists ds. split; [exact Hlines|]. intros text Htext.
  unfold parse_forward_model_file, raise_formatted. rewrite Hds, Htext. reflexivity.
Qed.

(** C10 fails on the code: when the hook raises a ValidationError with an
    entry whose location is empty (a model-level error), indexing
    [error['loc'][0]] raises inside the handler and an IndexError leaves
    the function, whatever the template. *)
Theorem parse_raises_IndexError_on_empty_loc (message : string) :
  parse_forward_model_file str_format model_level_failure message
  = inl (IndexError "tuple index out of range").
Proof. reflexivity. Qed.

(** The same for any ValidationError whose first entry has no location. *)
Lemma parse_raises_IndexError_first_entry {T}
    (error : ErrorDict) (errors : list ErrorDict) (message : string) :
  loc error = [] ->
  parse_forward_model_file (T := T) str_format
    (RaisesValidationError (error :: errors)) message
  = inl (IndexError "tuple index out of range").
Proof.
  intros H. unfold parse_forward_model_file. simpl. unfold describe. rewrite H. reflexivity.
Qed.

(** X1: when the hook returns its list of results,
    [parse_forward_model_file] returns that list after [res.pop()], that is
    without its last element; an empty list is returned as it is. *)
Theorem parse_returns_results_without_last {T} (init : list T) (x : T) (message : string) :
  parse_forward_model_file str_format (Returns (init ++ [x])) message = inr init /\
  parse_forward_model_file str_format (Returns (@nil T)) message = inr [].
Proof.
  split; [|reflexivity].
  unfold parse_forward_model_file.
  destruct (init ++ [x]) as [|y ys] eqn:H.
  - destruct init; discriminate H.
  - rewrite <- H. rewrite removelast_last. reflexivity.
Qed.

End ForwardModelsFacts.

Lemma parse_reraises_value_error_witness :
  ForwardModels.parse_forward_model_file (T := unit) ForwardModels.format_error
    (ForwardModels.RaisesValueError "no such file") "Cannot parse: {error}"
  = inl (ForwardModels.ValueError "Cannot parse: no such file").
Proof.
  apply (parse_reraises_value_error ForwardModels.format_error). reflexivity.
Defined.

Lemma parse_reraises_located_validation_error_witness :
  ForwardModels.parse_forward_model_file (T := unit) ForwardModels.format_error
    (ForwardModels.RaisesValidationError
       [ForwardModels.mkErrorDict [ForwardModels.LocStr "wells"; ForwardModels.LocInt 0]
          "abc" "Input should be a valid number";
        ForwardModels.mkErrorDict [ForwardModels.LocInt 2] "None" "Field required"])
    "Cannot parse: {error}"
  = inl (ForwardModels.ValueError
           ("Cannot parse: wells: abc -> Input should be a valid number"
            +:+ nl +:+ tab +:+ tab +:+ "2: None -> Field required")).
Proof.
  destruct (parse_reraises_located_validation_error ForwardModels.format_error (T := unit)
              [ForwardModels.mkErrorDict [ForwardModels.LocStr "wells"; ForwardModels.LocInt 0]
                 "abc" "Input should be a valid number";
               ForwardModels.mkErrorDict [ForwardModels.LocInt 2] "None" "Field required"]
              "Cannot parse: {error}")
    as (lines & Hlines & Hraise).
  - repeat constructor; discriminate.
  - apply Hraise.
    inversion Hlines as [|? line1 ? rest1 (l1 & ls1 & Hloc1 & ->) Hrest1]; subst.
    inversion Hrest1 as [|? line2 ? rest2 (l2 & ls2 & Hloc2 & ->) Hrest2]; subst.
    inversion Hrest2; subst.
    injection Hloc1 as <- _. injection Hloc2 as <- _.
    reflexivity.
Defined.

Example parse_field_failure :
  ForwardModels.parse_forward_model_file ForwardModels.format_error
    ForwardModels.field_failure "Failed to parse {{file}}: {error}"
  = inl (ForwardModels.ValueError
           "Failed to parse {file}: wells: abc -> Input should be a valid number").
Proof. reflexivity. Qed.

(** * Properties of [run_everest] *)

Section ScriptFacts.
Import Script.

Variable collaborator :
  Collaborator -> StatusRecord * bool -> option Exn * (StatusRecord * bool).

Lemma monitor_hint_shown (config_file : string) :
  contains (monitor_hint config_file) (running_message config_file) = true.
Proof.
  replace (running_message config_file)
    with (("An optimization is currently running." +:+ nl +:+
           "To monitor the running optimization use command:" +:+ nl +:+ "  ")
          +:+ monitor_hint config_file
          +:+ (nl +:+ "To kill the running optimization use command:" +:+ nl +:+
               "  `everest kill " +:+ config_file +:+ "`")).
  - apply contains_infix.
  - unfold monitor_hint, running_message. rewrite !append_assoc. reflexivity.
Qed.

Lemma kill_hint_shown (config_file : string) :
  contains (kill_hint config_file) (running_message config_file) = true.
Proof.
  replace (running_message config_file)
    with (("An optimization is currently running." +:+ nl +:+
           "To monitor the running optimization use command:" +:+ nl +:+
           "  `everest monitor " +:+ config_file +:+ "`" +:+ nl +:+
           "To kill the running optimization use command:" +:+ nl +:+ "  ")
          +:+ kill_hint config_file +:+ "").
  - apply contains_infix.
  - unfold kill_hint, running_message. rewrite !append_assoc. reflexivity.
Qed.

Lemma kill_hint_in_removed_message (config_file : string) :
  contains (kill_hint config_file) (removed_message config_file) = true.
Proof.
  replace (removed_message config_file)
    with (("The `everest run --kill` option has been removed." +:+ nl +:+
           "To kill the running optimization use command:" +:+ nl +:+ "  ")
          +:+ kill_hint config_file +:+ "").
  - apply contains_infix.
  - unfold kill_hint, removed_message. rewrite !append_assoc. reflexivity.
Qed.

Lemma removal_announced (config_file : string) :
  contains "option has been removed" (removed_message config_file) = true.
Proof.
  replace (removed_message config_file)
    with ("The `everest run --kill` " +:+ "option has been removed" +:+
          ("." +:+ nl +:+ "To kill the running optimization use command:" +:+ nl +:+
           "  `everest kill " +:+ config_file +:+ "`")).
  - apply contains_infix.
  - reflexivity.
Qed.

(** C9: with the removed [--kill] flag, [run] prints the removal notice,
    which redirects to [everest kill <config_file>], and returns: whatever
    the other flags, the record and the server are left as they were, and
    the invocation queries no status and calls no collaborator (no launch). *)
Theorem run_with_kill_flag_only_prints_notice (options : Options) (w : World) :
  kill options = true ->
  let notice := removed_message (config_file (config options)) in
  let events := [Printed (repeat_char "=" 80); Printed notice;
                 Printed (repeat_char "=" 80)] in
  run_everest collaborator options w
    = (Ok tt, mkWorld (record w) (alive w) (trace w ++ events)) /\
  contains "option has been removed" notice = true /\
  contains (kill_hint (config_file (config options))) notice = true /\
  existsb is_status_query events = false /\
  existsb is_call events = false.
Proof.
  intros Hkill notice events. split; [|split; [|split; [|split]]].
  - unfold run_everest. rewrite Hkill.
    unfold _kill_everest, bind, print, emit. simpl.
    rewrite <- !app_assoc. reflexivity.
  - apply removal_announced.
  - apply kill_hint_in_removed_message.
  - reflexivity.
  - reflexivity.
Qed.

(** C5, amended: without the removed [--kill] flag, [run] invoked while the
    server is running prints the message with the monitor and kill hints,
    calls no collaborator (no second job is started) and leaves the record
    unchanged, also when [--new-run] is given. *)
Theorem run_while_running_only_reports (options : Options) (w : World) :
  kill options = false ->
  alive w = true ->
  let text := running_message (config_file (config options)) in
  let events := [StatusQueried; LivenessProbed; Printed text] in
  run_everest collaborator options w
    = (Ok tt, mkWorld (record w) (alive w) (trace w ++ events)) /\
  contains (monitor_hint (config_file (config options))) text = true /\
  contains (kill_hint (config_file (config options))) text = true /\
  existsb is_launch events = false /\
  existsb is_call events = false.
Proof.
  intros Hkill Halive text events. split; [|split; [|split; [|split]]].
  - unfold run_everest. rewrite Hkill.
    unfold bind, everserver_status, server_is_running, print, emit. simpl.
    rewrite Halive. simpl. rewrite <- !app_assoc. reflexivity.
  - apply monitor_hint_shown.
  - apply kill_hint_shown.
  - reflexivity.
  - reflexivity.
Qed.

Lemma launch_after_probes (options : Options) (w : World) :
  kill options = false ->
  alive w = false ->
  is_never_run (status (record w)) || new_run options = true ->
  run_everest collaborator options w
  = bind (launch collaborator options) (fun _ => report_outcome)
      (mkWorld (record w) (alive w) (trace w ++ [StatusQueried; LivenessProbed])).
Proof.
  intros Hkill Halive Hfresh. unfold run_everest. rewrite Hkill.
  unfold bind at 1 2. unfold everserver_status, server_is_running. simpl.
  rewrite Halive, Hfresh. rewrite <- !app_assoc. reflexivity.
Qed.

(** C8: when a fresh run has been launched and followed to its end, the
    outcome of [run] reflects the record read afterwards: on FAILED it
    raises SystemExit with the stored message, which exits with status 1
    and shows the message; on COMPLETED or STOPPED it returns normally
    (status 0), having printed the stored message when there is one. *)
Theorem fresh_run_exit_reflects_record (options : Options) (w w1 : World) :
  kill options = false ->
  alive w = false ->
  is_never_run (status (record w)) || new_run options = true ->
  launch collaborator options
    (mkWorld (record w) (alive w) (trace w ++ [StatusQueried; LivenessProbed]))
    = (Ok tt, w1) ->
  let outcome := run_everest collaborator options w in
  record (snd outcome) = record w1 /\
  (status (record w1) = failed ->
     fst outcome = Raise (SystemExit (message (record w1))) /\
     forall text, message (record w1) = Some text ->
       exit_status (fst outcome) = 1 /\ exit_message (fst outcome) = Some text) /\
  (status (record w1) = completed \/ status (record w1) = stopped ->
     fst outcome = Ok tt /\
     exit_status (fst outcome) = 0 /\
     trace (snd outcome) =
       trace w1 ++ StatusQueried ::
         match message (record w1) with
         | Some text => [Logged INFO ("Everest run finished with: " +:+ text); Printed text]
         | None => []
         end).
Proof.
  intros Hkill Halive Hfresh Hlaunch outcome.
  assert (Hrun : outcome = report_outcome w1).
  { subst outcome. rewrite (launch_after_probes options w Hkill Halive Hfresh).
    unfold bind. rewrite Hlaunch. reflexivity. }
  rewrite Hrun. clear Hrun outcome Hlaunch.
  unfold report_outcome, bind, everserver_status, logger_error, logger_info,
    print, emit, raise, ret.
  destruct w1 as [[st msg] a tr]. simpl.
  split; [|split].
  - destruct st, msg; reflexivity.
  - intros ->. simpl. split; [reflexivity|].
    intros text ->. split; reflexivity.
  - intros [-> | ->]; simpl; destruct msg; simpl;
      rewrite <- ?app_assoc; repeat split; reflexivity.
Qed.

(** X4: when the server is not running, the recorded status is not
    [never_run] and [--new-run] is not given, [run] starts nothing: after
    the two queries it only calls [report_on_previous_run]. *)
Theorem run_on_finished_job_reports_previous_run (options : Options) (w : World) :
  kill options = false ->
  alive w = false ->
  status (record w) <> never_run ->
  new_run options = false ->
  trace (snd (run_everest collaborator options w))
    = trace w ++ [StatusQueried; LivenessProbed; Called report_on_previous_run] /\
  run_everest collaborator options w
    = call collaborator report_on_previous_run
        (mkWorld (record w) (alive w) (trace w ++ [StatusQueried; LivenessProbed])).
Proof.
  intros Hkill Halive Hstatus Hnew.
  assert (Hrun : run_everest collaborator options w
    = call collaborator report_on_previous_run
        (mkWorld (record w) (alive w) (trace w ++ [StatusQueried; LivenessProbed]))).
  { unfold run_everest. rewrite Hkill.
    unfold bind, everserver_status, server_is_running. simpl.
    rewrite Halive, Hnew.
    destruct (status (record w)); try congruence; simpl;
      rewrite <- !app_assoc; reflexivity. }
  split; [|exact Hrun].
  rewrite Hrun. unfold call. simpl.
  destruct (collaborator report_on_previous_run (record w, alive w)) as [outcome [r a]].
  simpl. rewrite <- !app_assoc. reflexivity.
Qed.

Lemma log_forward_model_blank (jobs : list string) (w : World) :
  Exists (fun fm_job => first_word fm_job = None) jobs ->
  exists logged,
    log_forward_model jobs w
      = (Raise (IndexError "list index out of range"),
         mkWorld (record w) (alive w) (trace w ++ logged)) /\
    existsb is_call logged = false.
Proof.
  intros Hblank. revert w.
  induction jobs as [|fm_job jobs IH]; intros w; [inversion Hblank|].
  simpl. destruct (first_word fm_job) as [job_name|] eqn:Hword.
  - assert (Hrest : Exists (fun fm_job => first_word fm_job = None) jobs).
    { inversion Hblank; subst; [congruence | assumption]. }
    unfold bind, logger_info, emit. simpl.
    destruct (IH Hrest (mkWorld (record w) (alive w)
                (trace w ++ [Logged INFO ("Everest forward model contains job " +:+ job_name)])))
      as (logged & Hrun & Hcalls).
    exists (Logged INFO ("Everest forward model contains job " +:+ job_name) :: logged).
    split; [|exact Hcalls].
    rewrite Hrun. simpl. rewrite <- app_assoc. reflexivity.
  - exists []. split; [|reflexivity].
    unfold raise. rewrite app_nil_r. destruct w; reflexivity.
Qed.

(** X5: a fresh run whose [forward_model] list holds a blank entry stops in
    the logging loop: [fm_job.split()[0]] raises IndexError before any
    collaborator is called, so nothing is launched. *)
Theorem fresh_run_with_blank_job_raises_IndexError (options : Options) (w : World) :
  kill options = false ->
  alive w = false ->
  is_never_run (status (record w)) || new_run options = true ->
  Exists (fun fm_job => first_word fm_job = None) (forward_model (config options)) ->
  exists events,
    run_everest collaborator options w
      = (Raise (IndexError "list index out of range"),
         mkWorld (record w) (alive w) (trace w ++ events)) /\
    existsb is_call events = false.
Proof.
  intros Hkill Halive Hfresh Hblank.
  rewrite (launch_after_probes options w Hkill Halive Hfresh).
  set (text := "Running everest with config info" +:+ nl +:+ " " +:+ to_dict (config options)).
  destruct (log_forward_model_blank (forward_model (config options))
              (mkWorld (record w) (alive w)
                 ((trace w ++ [StatusQueried; LivenessProbed]) ++ [Logged INFO text]))
              Hblank) as (logged & Hrun & Hcalls).
  exists ([StatusQueried; LivenessProbed; Logged INFO text] ++ logged).
  split.
  - unfold launch, bind at 1 2 3, logger_info, emit. simpl.
    fold text. rewrite Hrun. simpl. rewrite <- !app_assoc. reflexivity.
  - simpl. exact Hcalls.
Qed.

End ScriptFacts.

Section ScriptRuns.
Import Script.

Lemma run_with_kill_flag_only_prints_notice_witness :
  fst (run_everest finishing_job kill_run busy_world) = Ok tt /\
  record (snd (run_everest finishing_job kill_run busy_world)) = record busy_world /\
  length (trace (snd (run_everest finishing_job kill_run busy_world))) = 3%nat.
Proof.
  destruct (run_with_kill_flag_only_prints_notice finishing_job kill_run busy_world)
    as [Hrun _]; [reflexivity|].
  rewrite Hrun. repeat split; reflexivity.
Defined.

(** C5, as the specification states it, fails: invoked with [--kill] (and
    [--new-run]) while the server is running, [run] prints the removal
    notice only, and no printed line carries the monitor hint. *)
Lemma run_with_kill_flag_shows_no_monitor_hint :
  alive busy_world = true /\
  kill kill_run = true /\
  existsb (prints (monitor_hint (config_file (config kill_run))))
    (trace (snd (run_everest finishing_job kill_run busy_world))) = false /\
  existsb (prints "everest monitor")
    (trace (snd (run_everest finishing_job kill_run busy_world))) = false.
Proof. repeat split; reflexivity. Qed.

Lemma run_while_running_only_reports_witness :
  fst (run_everest finishing_job forced_run busy_world) = Ok tt /\
  record (snd (run_everest finishing_job forced_run busy_world)) = record busy_world /\
  existsb (prints (monitor_hint "config.yml"))
    (trace (snd (run_everest finishing_job forced_run busy_world))) = true.
Proof.
  destruct (run_while_running_only_reports finishing_job forced_run busy_world)
    as [Hrun _]; [reflexivity | reflexivity |].
  rewrite Hrun. repeat split; reflexivity.
Defined.

Lemma fresh_run_exit_reflects_record_witness :
  (fst (run_everest failing_job plain_run idle_world)
     = Raise (SystemExit (Some "simulation crashed")) /\
   exit_status (fst (run_everest failing_job plain_run idle_world)) = 1) /\
  (fst (run_everest finishing_job plain_run idle_world) = Ok tt /\
   exit_status (fst (run_everest finishing_job plain_run idle_world)) = 0).
Proof.
  split.
  - destruct (fresh_run_exit_reflects_record failing_job plain_run idle_world
                (snd (launch failing_job plain_run
                        (mkWorld (record idle_world) (alive idle_world)
                           (trace idle_world ++ [StatusQueried; LivenessProbed])))))
      as (_ & Hfailed & _); [reflexivity..|].
    destruct (Hfailed eq_refl) as [Hraise Hexit].
    split; [exact Hraise | apply (Hexit "simulation crashed"); reflexivity].
  - destruct (fresh_run_exit_reflects_record finishing_job plain_run idle_world
                (snd (launch finishing_job plain_run
                        (mkWorld (record idle_world) (alive idle_world)
                           (trace idle_world ++ [StatusQueried; LivenessProbed])))))
      as (_ & _ & Hdone); [reflexivity..|].
    destruct (Hdone (or_introl eq_refl)) as (Hok & Hexit & _).
    split; [exact Hok | exact Hexit].
Defined.

Lemma run_on_finished_job_reports_previous_run_witness :
  trace (snd (run_everest finishing_job plain_run
                (mkWorld (mkStatus completed (Some "done")) false [])))
  = [StatusQueried; LivenessProbed; Called report_on_previous_run].
Proof.
  apply (run_on_finished_job_reports_previous_run finishing_job plain_run
           (mkWorld (mkStatus completed (Some "done")) false []));
    [reflexivity | reflexivity | discriminate | reflexivity].
Defined.

Lemma fresh_run_with_blank_job_raises_IndexError_witness :
  exists events,
    run_everest finishing_job
      (mkOptions (mkConfig "config.yml" ["simulate"; "  "] "out" "{}") false false false false)
      idle_world
    = (Raise (IndexError "list index out of range"),
       mkWorld (record idle_world) (alive idle_world) (trace idle_world ++ events)) /\
    existsb is_call events = false.
Proof.
  apply (fresh_run_with_blank_job_raises_IndexError finishing_job);
    [reflexivity | reflexivity | reflexivity |].
  apply Exists_cons_tl, Exists_cons_hd. reflexivity.
Defined.

End ScriptRuns.

(** * Properties of the collectors *)

Section CollectorsFacts.
Import Collectors.

(** X6: [collect_forward_model_schemas] hands back the result of the last
    plugin that answered, and raises IndexError exactly when the hook
    returned no result at all. *)
Theorem collect_forward_model_schemas_takes_last {Schemas} (hook : list Schemas) :
  (forall schemas,
     collect_forward_model_schemas hook = inr schemas <->
     exists init, hook = init ++ [schemas]) /\
  (collect_forward_model_schemas hook
     = inl (ForwardModels.IndexError "pop from empty list") <-> hook = []).
Proof.
  unfold collect_forward_model_schemas. split.
  - intros schemas. rewrite <- last_Some.
    destruct (last hook); split; congruence.
  - rewrite <- last_None.
    destruct (last hook); split; congruence.
Qed.

Lemma collect_forward_model_schemas_takes_last_witness :
  collect_forward_model_schemas ["well_trajectory"; "add_templates"] = inr "add_templates" /\
  collect_forward_model_schemas (@nil string)
    = inl (ForwardModels.IndexError "pop from empty list").
Proof.
  split.
  - apply (collect_forward_model_schemas_takes_last ["well_trajectory"; "add_templates"]).
    exists ["well_trajectory"]. reflexivity.
  - apply (collect_forward_model_schemas_takes_last (@nil string)). reflexivity.
Defined.

End CollectorsFacts.

(** * Properties of the Qt dialogs *)

Section QtDialogsFacts.
Import QtDialogs.

Variable Window : Type.

Lemma show_shown (level : Z) (kind : Box) (heading : string)
    (self : QtDialogsOut Window) (message : string) (force : bool) :
  show Window level kind heading self message force <> [] <->
  (log_level self <= level)%Z \/ force = true.
Proof.
  unfold show. rewrite <- Z.geb_le, <- orb_true_iff.
  destruct (_ || _); split; congruence.
Qed.

(** X7: the five methods are ordered by severity: whatever the log level,
    when a call without [force] opens a dialog, the same call on every
    more severe method opens one too (debug, info, warning, _error,
    critical, in this order). *)
Theorem dialogs_follow_severity (self : QtDialogsOut Window) (message : string) :
  (debug self message false <> [] -> info self message false <> []) /\
  (info self message false <> [] -> warning self message false <> []) /\
  (warning self message false <> [] -> _error self message false <> []) /\
  (_error self message false <> [] -> critical self message false <> []).
Proof.
  unfold debug, info, warning, _error, critical.
  rewrite !show_shown. unfold DEBUG, INFO, WARNING, ERROR, CRITICAL.
  repeat split; intros [H | H]; first [discriminate H | left; lia].
Qed.

(** X8: [force=True] overrides the log level: every method then opens
    exactly one dialog, on the main window and with the message as its
    text; without [force], a log level above CRITICAL silences all five. *)
Theorem force_overrides_log_level (self : QtDialogsOut Window) (message : string) :
  (forall method,
     In method [critical; _error; warning; info; debug] ->
     exists kind heading,
       method self message true = [mkDialog kind (_main_window self) heading message]) /\
  ((CRITICAL < log_level self)%Z ->
   forall method,
     In method [critical; _error; warning; info; debug] ->
     method self message false = []).
Proof.
  split.
  - intros method Hin. simpl in Hin.
    destruct Hin as [<- | [<- | [<- | [<- | [<- | []]]]]];
      unfold critical, _error, warning, info, debug, show;
      rewrite orb_true_r; eauto.
  - intros Hlevel method Hin. simpl in Hin.
    unfold CRITICAL in Hlevel.
    destruct Hin as [<- | [<- | [<- | [<- | [<- | []]]]]];
      unfold critical, _error, warning, info, debug, show,
        CRITICAL, ERROR, WARNING, INFO, DEBUG;
      rewrite orb_false_r;
      (destruct (_ >=? _)%Z eqn:Hge; [apply Z.geb_le in Hge; lia | reflexivity]).
Qed.

End QtDialogsFacts.

Lemma dialogs_follow_severity_witness :
  QtDialogs.critical (QtDialogs.default_dialogs tt) "disk full" false <> [] /\
  QtDialogs.warning (QtDialogs.mkQtDialogsOut unit tt QtDialogs.INFO) "slow" false <> [].
Proof.
  split.
  - apply (dialogs_follow_severity unit). discriminate.
  - apply (dialogs_follow_severity unit). discriminate.
Defined.

Lemma force_overrides_log_level_witness :
  QtDialogs.debug (QtDialogs.mkQtDialogsOut unit tt 60) "trace" false = [] /\
  exists kind heading,
    QtDialogs.debug (QtDialogs.mkQtDialogsOut unit tt 60) "trace" true
    = [QtDialogs.mkDialog kind tt heading "trace"].
Proof.
  split.
  - apply (force_overrides_log_level unit (QtDialogs.mkQtDialogsOut unit tt 60) "trace");
      [reflexivity | simpl; tauto].
  - apply (force_overrides_log_level unit (QtDialogs.mkQtDialogsOut unit tt 60) "trace").
    simpl. tauto.
Defined.

(** * Properties of the test utilities *)

Section TestUtilsFacts.
Import TestUtils.

Variable rmtree : string -> bool -> St FileSystem unit.

Lemma get_error_after (parser : MockParser) (values : list (option string)) :
  get_error (foldl error parser values) = default (get_error parser) (last values).
Proof.
  revert parser. induction values as [|value values IH]; intros parser; [reflexivity|].
  simpl. rewrite IH. destruct values as [|value' values]; [reflexivity|].
  change (last (value :: value' :: values)) with (last (value' :: values)).
  destruct (last (value' :: values)) eqn:Hlast; [reflexivity|].
  apply last_None in Hlast. discriminate Hlast.
Qed.

(** X9: a [MockParser] keeps the value of the last call to [error] only:
    after any sequence of calls [get_error] returns the value passed last,
    and [None] when [error] was never called. *)
Theorem mock_parser_keeps_last_error (values : list (option string)) :
  get_error (foldl error new_parser values) = default None (last values).
Proof. apply get_error_after. Qed.

Lemma append_not_empty (a b : string) : b <> "" -> a +:+ b <> "".
Proof. intros Hb. destruct a; [exact Hb | discriminate]. Qed.

Lemma ends_with_sep_append (a b : string) :
  b <> "" -> ends_with_sep (a +:+ b) = ends_with_sep b.
Proof.
  intros Hb. induction a as [|c a IH]; [reflexivity|].
  change (String c a +:+ b) with (String c (a +:+ b)).
  pose proof (append_not_empty a b Hb) as Hab.
  destruct (a +:+ b) as [|c' rest] eqn:Heq; [congruence|].
  exact IH.
Qed.

(** The directory part [os.path.join] puts in front of a relative name. *)
Lemma join_relative (path b : string) :
  String.prefix "/" b = false ->
  join_component path b
  = (if String.eqb path "" || ends_with_sep path then path else path +:+ "/") +:+ b.
Proof.
  intros Hb. unfold join_component. rewrite Hb.
  destruct (String.eqb path "" || ends_with_sep path); [reflexivity|].
  rewrite append_assoc. reflexivity.
Qed.

(** X10: the path [everest_default_jobs] gives a script job is the output
    directory, a separator unless the directory is empty or already ends
    with one, and [.jobs/_<script_name>]; no script name, not even an
    absolute one, moves the job out of the [.jobs] directory. *)
Theorem script_job_path_under_jobs_dir (output_dir script_name : string) :
  path_join output_dir [".jobs"; "_" +:+ script_name]
  = (if String.eqb output_dir "" || ends_with_sep output_dir
     then output_dir else output_dir +:+ "/")
    +:+ ".jobs/_" +:+ script_name.
Proof.
  unfold path_join. simpl fold_left.
  rewrite (join_relative output_dir ".jobs") by reflexivity.
  set (dir := if String.eqb output_dir "" || ends_with_sep output_dir
              then output_dir else output_dir +:+ "/").
  rewrite join_relative by reflexivity.
  assert (Hne : String.eqb (dir +:+ ".jobs") "" = false).
  { apply String.eqb_neq, append_not_empty. discriminate. }
  assert (Hsep : ends_with_sep (dir +:+ ".jobs") = false).
  { rewrite ends_with_sep_append by discriminate. reflexivity. }
  rewrite Hne, Hsep. simpl orb. cbv iota.
  rewrite !append_assoc. reflexivity.
Qed.

Lemma named_paths_lookup (jobs : list (gmap string string)) (l : list (string * string)) :
  named_paths jobs = inr l ->
  length l = length jobs /\
  forall i job, jobs !! i = Some job ->
    exists n p, job !! "name" = Some n /\ job !! "path" = Some p /\ l !! i = Some (n, p).
Proof.
  revert l. induction jobs as [|job jobs IH]; intros l H; cbn [named_paths] in H.
  - injection H as <-. split; [reflexivity|]. intros i job Hi. discriminate Hi.
  - unfold getitem in H.
    destruct (job !! "name") as [n|] eqn:Hn; [|discriminate H].
    destruct (job !! "path") as [p|] eqn:Hp; [|discriminate H].
    destruct (named_paths jobs) as [e|l'] eqn:Hrest; [discriminate H|].
    injection H as <-. destruct (IH l' eq_refl) as [Hlen Hlook].
    split; [simpl; rewrite Hlen; reflexivity|].
    intros [|i] job' Hi; simpl in Hi.
    + injection Hi as <-. exists n, p. auto.
    + apply Hlook. exact Hi.
Qed.

Lemma named_paths_succeeds (jobs : list (gmap string string)) :
  (exists l, named_paths jobs = inr l) <->
  Forall (fun job => is_Some (job !! "name") /\ is_Some (job !! "path")) jobs.
Proof.
  induction jobs as [|job jobs IH]; cbn [named_paths].
  - split; [constructor | eexists; reflexivity].
  - unfold getitem. split.
    + intros [l H].
      destruct (job !! "name") as [n|] eqn:Hn; [|discriminate H].
      destruct (job !! "path") as [p|] eqn:Hp; [|discriminate H].
      destruct (named_paths jobs) as [e|l']; [discriminate H|].
      constructor; [split; eexists; eassumption|].
      apply IH. eexists. reflexivity.
    + intros H. inversion H as [|? ? [[n Hn] [p Hp]] Hrest]; subst.
      rewrite Hn, Hp.
      apply IH in Hrest as [l' ->]. eexists. reflexivity.
Qed.

Lemma named_paths_fails (jobs : list (gmap string string)) (e : ForwardModels.Exn) :
  named_paths jobs = inl e ->
  e = ForwardModels.KeyError "name" \/ e = ForwardModels.KeyError "path".
Proof.
  induction jobs as [|job jobs IH]; cbn [named_paths]; [discriminate|].
  unfold getitem.
  destruct (job !! "name"); [|intros [= <-]; left; reflexivity].
  destruct (job !! "path"); [|intros [= <-]; right; reflexivity].
  destruct (named_paths jobs) as [e'|l]; [|discriminate].
  intros [= <-]. apply IH. reflexivity.
Qed.

(** X11: the list [everest_default_jobs] returns holds one entry per script
    name, in the order of [script_names] and paired with its path under the
    output directory, followed by one entry (name, path) per job of the
    plugins, in the order the plugins gave them. *)
Theorem everest_default_jobs_scripts_then_plugins
    (script_names : list string) (hook : list (list (gmap string string)))
    (output_dir : string) (jobs : list (string * string)) :
  everest_default_jobs script_names hook output_dir = inr jobs ->
  length jobs
    = (length script_names + length (Collectors.collect_forward_models hook))%nat /\
  (forall i script_name,
     script_names !! i = Some script_name ->
     jobs !! i
       = Some (script_name, path_join output_dir [".jobs"; "_" +:+ script_name])) /\
  (forall i job,
     Collectors.collect_forward_models hook !! i = Some job ->
     exists n p, job !! "name" = Some n /\ job !! "path" = Some p /\
                 jobs !! (length script_names + i)%nat = Some (n, p)).
Proof.
  unfold everest_default_jobs. intros H.
  destruct (named_paths (Collectors.collect_forward_models hook)) as [e|plugins] eqn:Hp;
    [discriminate H|].
  injection H as <-.
  destruct (named_paths_lookup _ _ Hp) as [Hlen Hlook].
  split; [|split].
  - rewrite length_app, length_fmap, Hlen. reflexivity.
  - intros i script_name Hi. rewrite lookup_app_l.
    + rewrite list_lookup_fmap, Hi. reflexivity.
    + rewrite length_fmap. eapply lookup_lt_Some. exact Hi.
  - intros i job Hi. destruct (Hlook i job Hi) as (n & p & Hn & Hpath & Hl).
    exists n, p. split; [exact Hn|]. split; [exact Hpath|].
    rewrite lookup_app_r; rewrite length_fmap; [|lia].
    replace (length script_names + i - length script_names)%nat with i by lia.
    exact Hl.
Qed.

(** X12: [everest_default_jobs] returns a list exactly when every job of
    every plugin has both keys [name] and [path]; otherwise it raises the
    KeyError of the first missing key. *)
Theorem everest_default_jobs_needs_name_and_path
    (script_names : list string) (hook : list (list (gmap string string)))
    (output_dir : string) :
  ((exists jobs, everest_default_jobs script_names hook output_dir = inr jobs) <->
   forall plugin job, plugin ∈ hook -> job ∈ plugin ->
     is_Some (job !! "name") /\ is_Some (job !! "path")) /\
  (forall e, everest_default_jobs script_names hook output_dir = inl e ->
     e = ForwardModels.KeyError "name" \/ e = ForwardModels.KeyError "path").
Proof.
  unfold everest_default_jobs, Collectors.collect_forward_models. split.
  - split.
    + intros [jobs H] plugin job Hplugin Hjob.
      destruct (named_paths (concat hook)) as [e|plugins] eqn:Hp; [discriminate H|].
      assert (Hall : Forall (fun job => is_Some (job !! "name") /\ is_Some (job !! "path"))
                       (concat hook)).
      { apply named_paths_succeeds. eexists. exact Hp. }
      rewrite Forall_forall in Hall. apply Hall.
      apply list_elem_of_In, in_concat. exists plugin.
      split; apply list_elem_of_In; assumption.
    + intros Hall.
      assert (Hjobs : Forall (fun job => is_Some (job !! "name") /\ is_Some (job !! "path"))
                        (concat hook)).
      { apply Forall_forall. intros job Hjob.
        apply list_elem_of_In, in_concat in Hjob as (plugin & Hplugin & Hin).
        apply (Hall plugin job); apply list_elem_of_In; assumption. }
      apply named_paths_succeeds in Hjobs as [plugins ->]. eexists. reflexivity.
  - intros e H.
    destruct (named_paths (concat hook)) as [e'|plugins] eqn:Hp; [|discriminate H].
    injection H as <-. eapply named_paths_fails. exact Hp.
Qed.

Lemma tmp_setup {A} (fname : string) (path : option string) (teardown : bool)
    (body : string -> St FileSystem A) (fs : FileSystem) :
  fname ∉ dirs fs ->
  match path with
  | Some p => p = "" \/ p ∈ dirs fs
  | None => True
  end ->
  tmp rmtree fname path teardown body fs
  = match body fname (mkFS fname ({[fname]} ∪ dirs fs)) with
    | (Ok a, fs2) =>
        bind (chdir (cwd fs))
          (fun _ => bind (if teardown
                          then except_OSError (rmtree fname false) (rmtree fname true)
                          else ret tt)
                      (fun _ => ret a)) fs2
    | (Raise e, fs2) => (Raise e, fs2)
    end.
Proof.
  intros Hfresh Hpath.
  assert (Hmk : mkdir fname fs = (Ok tt, mkFS (cwd fs) ({[fname]} ∪ dirs fs))).
  { unfold mkdir. rewrite bool_decide_eq_false_2 by exact Hfresh. reflexivity. }
  assert (Hcd : chdir fname (mkFS (cwd fs) ({[fname]} ∪ dirs fs))
                = (Ok tt, mkFS fname ({[fname]} ∪ dirs fs))).
  { unfold chdir. simpl. rewrite bool_decide_eq_true_2 by set_solver. reflexivity. }
  assert (Hsetup : forall setup : St FileSystem unit,
            setup fs = (Ok tt, mkFS (cwd fs) ({[fname]} ∪ dirs fs)) ->
            bind getcwd (fun cwd0 =>
              bind setup (fun _ => bind (chdir fname) (fun _ =>
                bind (body fname) (fun result => bind (chdir cwd0) (fun _ =>
                  bind (if teardown
                        then except_OSError (rmtree fname false) (rmtree fname true)
                        else ret tt)
                    (fun _ => ret result)))))) fs
            = match body fname (mkFS fname ({[fname]} ∪ dirs fs)) with
              | (Ok a, fs2) =>
                  bind (chdir (cwd fs))
                    (fun _ => bind (if teardown
                                    then except_OSError (rmtree fname false) (rmtree fname true)
                                    else ret tt)
                                (fun _ => ret a)) fs2
              | (Raise e, fs2) => (Raise e, fs2)
              end).
  { intros setup Hs. unfold bind at 1 2 3 4. unfold getcwd. rewrite Hs, Hcd.
    destruct (body fname _) as [[a|e] fs2]; reflexivity. }
  unfold tmp. destruct path as [p|]; [|apply Hsetup; exact Hmk].
  destruct (String.eqb p "") eqn:Hp; simpl negb; cbv iota.
  - apply Hsetup. exact Hmk.
  - apply Hsetup. destruct Hpath as [-> | Hdir]; [discriminate Hp|].
    unfold bind, isdir, copytree. rewrite bool_decide_eq_true_2 by exact Hdir.
    simpl. rewrite bool_decide_eq_true_2 by exact Hdir. exact Hmk.
Qed.

(** X13: [tmp] given a path that is not a directory raises
    "No such directory: <path>" before it creates or enters anything: the
    body does not run and the file system is as before. *)
Theorem tmp_missing_directory_raises {A} (fname p : string) (teardown : bool)
    (body : string -> St FileSystem A) (fs : FileSystem) :
  p <> "" ->
  p ∉ dirs fs ->
  tmp rmtree fname (Some p) teardown body fs
  = (Raise (OSError ("No such directory: " +:+ p)), fs).
Proof.
  intros Hp Hdir. unfold tmp, bind, getcwd, isdir, raise.
  apply String.eqb_neq in Hp. rewrite Hp. simpl.
  rewrite bool_decide_eq_false_2 by exact Hdir. reflexivity.
Qed.

Section Teardown.

(** What is used of [shutil.rmtree]: it does not change the working
    directory, with [ignore_errors] it returns normally, and when it fails
    without it the exception is an OSError. *)
Hypothesis rmtree_keeps_cwd :
  forall path ignore_errors fs, cwd (snd (rmtree path ignore_errors fs)) = cwd fs.
Hypothesis rmtree_ignoring_returns :
  forall path fs, fst (rmtree path true fs) = Ok tt.
Hypothesis rmtree_fails_with_OSError :
  forall path fs e, fst (rmtree path false fs) = Raise e -> exists text, e = OSError text.

(** X14: when the body returns, [tmp] goes back to the directory it was
    entered from and hands on the body's value.  Without [teardown] the
    directories are as the body left them.  With [teardown] the deletion
    is attempted and never makes the block fail: when [rmtree] succeeds the
    file system is as it left it, and when it raises, the deletion is
    tried once more with [ignore_errors] and the block returns all the
    same, whatever is left of the temporary directory. *)
Theorem tmp_restores_cwd_on_return {A} (fname : string) (path : option string)
    (teardown : bool) (body : string -> St FileSystem A)
    (fs fs2 : FileSystem) (a : A) :
  fname ∉ dirs fs ->
  match path with
  | Some p => p = "" \/ p ∈ dirs fs
  | None => True
  end ->
  body fname (mkFS fname ({[fname]} ∪ dirs fs)) = (Ok a, fs2) ->
  cwd fs ∈ dirs fs2 ->
  exists fs',
    tmp rmtree fname path teardown body fs = (Ok a, fs') /\
    cwd fs' = cwd fs /\
    (teardown = false -> dirs fs' = dirs fs2) /\
    (teardown = true ->
     forall r fs3,
       rmtree fname false (mkFS (cwd fs) (dirs fs2)) = (r, fs3) ->
       (r = Ok tt -> fs' = fs3) /\
       (r <> Ok tt -> fs' = snd (rmtree fname true fs3))).
Proof.
  intros Hfresh Hpath Hbody Hcwd.
  rewrite (tmp_setup fname path teardown body fs Hfresh Hpath), Hbody.
  unfold bind, chdir. rewrite bool_decide_eq_true_2 by exact Hcwd.
  destruct teardown.
  - unfold except_OSError.
    pose proof (rmtree_keeps_cwd fname false (mkFS (cwd fs) (dirs fs2))) as Hcwd1.
    pose proof (rmtree_fails_with_OSError fname (mkFS (cwd fs) (dirs fs2))) as Hfail.
    destruct (rmtree fname false (mkFS (cwd fs) (dirs fs2))) as [[[]|e] fs3].
    + exists fs3. split; [reflexivity|]. split; [exact Hcwd1|].
      split; [discriminate|]. intros _ r fs3' [= <- <-].
      split; [reflexivity | congruence].
    + destruct (Hfail e eq_refl) as [text ->].
      pose proof (rmtree_keeps_cwd fname true fs3) as Hcwd2.
      pose proof (rmtree_ignoring_returns fname fs3) as Hok.
      destruct (rmtree fname true fs3) as [r4 fs4] eqn:Hretry.
      simpl in Hcwd1, Hcwd2, Hok. subst r4. exists fs4.
      split; [reflexivity|]. split; [congruence|].
      split; [discriminate|]. intros _ r fs3' [= <- <-].
      split; [discriminate | rewrite Hretry; reflexivity].
  - exists (mkFS (cwd fs) (dirs fs2)). simpl.
    split; [reflexivity|]. split; [reflexivity|].
    split; [reflexivity | discriminate].
Qed.

End Teardown.

(** X15: when the body raises, nothing after the [yield] of [tmp] runs:
    the exception leaves the block with the file system as the body left
    it, so the working directory is not restored and the temporary
    directory is not removed, whatever [teardown] says. *)
Theorem tmp_body_raises_skips_cleanup {A} (fname : string) (path : option string)
    (teardown : bool) (body : string -> St FileSystem A)
    (fs fs2 : FileSystem) (e : Exn) :
  fname ∉ dirs fs ->
  match path with
  | Some p => p = "" \/ p ∈ dirs fs
  | None => True
  end ->
  body fname (mkFS fname ({[fname]} ∪ dirs fs)) = (Raise e, fs2) ->
  tmp rmtree (A := A) fname path teardown body fs = (Raise e, fs2).
Proof.
  intros Hfresh Hpath Hbody.
  rewrite (tmp_setup fname path teardown body fs Hfresh Hpath), Hbody. reflexivity.
Qed.

(** X16: [capture_streams] puts [sys.stdout] and [sys.stderr] back, whether
    the body returns or raises and whatever the body assigned to them; the
    outcome of the block is the outcome of the body. *)
Theorem capture_streams_restores_streams {A} (body : nat * nat -> St Streams A)
    (st : Streams) :
  sys_stdout (snd (capture_streams body st)) = sys_stdout st /\
  sys_stderr (snd (capture_streams body st)) = sys_stderr st /\
  exists new_out new_err st1,
    (new_out ∉ dom (written st)) /\ (new_err ∉ dom (written st)) /\ new_out <> new_err /\
    sys_stdout st1 = new_out /\ sys_stderr st1 = new_err /\
    fst (capture_streams body st) = fst (body (new_out, new_err) st1).
Proof.
  unfold capture_streams, bind, StringIO, finally, set_streams. simpl.
  set (new_out := fresh (dom (written st))).
  set (new_err := fresh (dom (<[new_out:=""]> (written st)))).
  set (st1 := mkStreams new_out new_err (<[new_err:=""]> (<[new_out:=""]> (written st)))).
  assert (Hout : new_out ∉ dom (written st)) by apply is_fresh.
  assert (Herr : new_err ∉ dom (<[new_out:=""]> (written st))) by apply is_fresh.
  rewrite dom_insert_L in Herr.
  destruct (body (new_out, new_err) st1) as [r st2] eqn:Hbody. simpl.
  split; [reflexivity|]. split; [reflexivity|].
  exists new_out, new_err, st1. rewrite Hbody.
  repeat split; try reflexivity; try assumption.
  - intros Hin. apply Herr. apply elem_of_union. right. exact Hin.
  - intros Heq. apply Herr. apply elem_of_union. left.
    apply elem_of_singleton. symmetry. exact Heq.
Qed.

(** X17: text printed inside [capture_streams] ends up in the captured
    stdout object, as the docstring promises, and the stream that was
    [sys.stdout] before receives nothing of it. *)
Theorem capture_streams_captures_print (text : string) (st : Streams) :
  is_Some (written st !! sys_stdout st) ->
  exists out,
    (out ∉ dom (written st)) /\
    fst (capture_streams (fun streams => bind (print text) (fun _ => ret (fst streams))) st) = Ok out /\
    getvalue out (snd (capture_streams (fun streams => bind (print text) (fun _ => ret (fst streams))) st))
      = text +:+ nl /\
    written (snd (capture_streams (fun streams => bind (print text) (fun _ => ret (fst streams))) st))
      !! sys_stdout st
      = written st !! sys_stdout st.
Proof.
  intros Hstdout.
  unfold capture_streams, bind, StringIO, finally, set_streams, print, write, ret, getvalue.
  simpl.
  set (new_out := fresh (dom (written st))).
  set (new_err := fresh (dom (<[new_out:=""]> (written st)))).
  assert (Hout : new_out ∉ dom (written st)) by apply is_fresh.
  assert (Herr : new_err ∉ dom (<[new_out:=""]> (written st))) by apply is_fresh.
  rewrite dom_insert_L in Herr.
  assert (Hne : new_err <> new_out).
  { intros Heq. apply Herr. apply elem_of_union. left. apply elem_of_singleton. exact Heq. }
  assert (Hold_out : new_out <> sys_stdout st).
  { intros Heq. apply Hout. rewrite Heq. apply elem_of_dom. exact Hstdout. }
  assert (Hold_err : new_err <> sys_stdout st).
  { intros Heq. apply Herr. apply elem_of_union. right.
    rewrite Heq. apply elem_of_dom. exact Hstdout. }
  exists new_out. split; [exact Hout|]. split; [reflexivity|]. split.
  - rewrite lookup_alter_eq, lookup_insert_ne by exact Hne.
    rewrite lookup_insert_eq. reflexivity.
  - rewrite lookup_alter_ne by exact Hold_out.
    rewrite lookup_insert_ne by exact Hold_err.
    rewrite lookup_insert_ne by exact Hold_out. reflexivity.
Qed.

End TestUtilsFacts.

Section TestUtilsRuns.
Import TestUtils.

Lemma everest_default_jobs_scripts_then_plugins_witness :
  length [("render", "out/.jobs/_render"); ("well_swapping", "/opt/bin/well_swapping")]
  = (length ["render"]
     + length (Collectors.collect_forward_models
                 [[]; [<["name" := "well_swapping"]> (<["path" := "/opt/bin/well_swapping"]> (∅ : gmap string string))]]))%nat.
Proof.
  apply (everest_default_jobs_scripts_then_plugins ["render"]
           [[]; [<["name" := "well_swapping"]> (<["path" := "/opt/bin/well_swapping"]> (∅ : gmap string string))]]
           "out").
  reflexivity.
Defined.

Lemma everest_default_jobs_needs_name_and_path_witness :
  (ForwardModels.KeyError "path" = ForwardModels.KeyError "name" \/
   ForwardModels.KeyError "path" = ForwardModels.KeyError "path") /\
  (exists jobs, everest_default_jobs ["render"] [] "out" = inr jobs).
Proof.
  split.
  - apply (everest_default_jobs_needs_name_and_path ["render"]
             [[<["name" := "well_swapping"]> (∅ : gmap string string)]] "out").
    reflexivity.
  - apply (everest_default_jobs_needs_name_and_path ["render"] [] "out").
    intros plugin job Hplugin. apply elem_of_nil in Hplugin. contradiction.
Defined.

Lemma rmtree_unless_keeps_cwd (protected : gset string) (path : string)
    (ignore_errors : bool) (fs : FileSystem) :
  cwd (snd (rmtree_unless protected path ignore_errors fs)) = cwd fs.
Proof.
  unfold rmtree_unless.
  destruct (_ && _); [reflexivity|]. destruct ignore_errors; reflexivity.
Qed.

Lemma rmtree_unless_ignoring_returns (protected : gset string) (path : string)
    (fs : FileSystem) :
  fst (rmtree_unless protected path true fs) = Ok tt.
Proof. unfold rmtree_unless. destruct (_ && _); reflexivity. Qed.

Lemma rmtree_unless_fails_with_OSError (protected : gset string) (path : string)
    (fs : FileSystem) (e : Exn) :
  fst (rmtree_unless protected path false fs) = Raise e -> exists text, e = OSError text.
Proof.
  unfold rmtree_unless. destruct (_ && _); simpl; [discriminate|].
  intros [= <-]. eexists. reflexivity.
Qed.

Lemma rmtree_unless_deletes (protected : gset string) (path : string) (fs : FileSystem) :
  path ∈ dirs fs -> path ∉ protected ->
  exists fs3, rmtree_unless protected path false fs = (Ok tt, fs3) /\ path ∉ dirs fs3.
Proof.
  intros Hin Hfree. unfold rmtree_unless.
  rewrite bool_decide_eq_true_2 by exact Hin.
  rewrite bool_decide_eq_false_2 by exact Hfree. simpl.
  eexists. split; [reflexivity|]. simpl.
  intros Hleft. apply elem_of_filter in Hleft as [[Hne _] _]. congruence.
Qed.

Lemma rmtree_unless_refuses (protected : gset string) (path : string) (fs : FileSystem) :
  path ∈ protected ->
  fst (rmtree_unless protected path false fs) <> Ok tt /\
  snd (rmtree_unless protected path false fs) = fs /\
  snd (rmtree_unless protected path true fs) = fs.
Proof.
  intros Hprotected. unfold rmtree_unless.
  rewrite (bool_decide_eq_true_2 (path ∈ protected)) by exact Hprotected.
  rewrite andb_false_r. simpl. repeat split. discriminate.
Qed.

Lemma tmp_missing_directory_raises_witness :
  tmp (rmtree_unless ∅) "/tmp/tmpabc" (Some "test_data/missing") true (fun _ => ret tt) home
  = (Raise (OSError "No such directory: test_data/missing"), home).
Proof.
  apply (tmp_missing_directory_raises (rmtree_unless ∅) "/tmp/tmpabc" "test_data/missing").
  - discriminate.
  - intros H. simpl in H. apply elem_of_singleton in H. discriminate H.
Defined.

Lemma tmp_restores_cwd_on_return_witness :
  (exists fs',
     tmp (rmtree_unless ∅) "/tmp/tmpabc" None true (fun fname => ret fname) home
       = (Ok "/tmp/tmpabc", fs') /\
     cwd fs' = cwd home /\ "/tmp/tmpabc" ∉ dirs fs') /\
  (exists fs',
     tmp (rmtree_unless {["/tmp/tmpabc"]}) "/tmp/tmpabc" None true
       (fun fname => ret fname) home
       = (Ok "/tmp/tmpabc", fs') /\
     cwd fs' = cwd home /\ "/tmp/tmpabc" ∈ dirs fs').
Proof.
  assert (Hfresh : "/tmp/tmpabc" ∉ dirs home).
  { intros H. simpl in H. apply elem_of_singleton in H. discriminate H. }
  assert (Hhome : cwd home ∈ {["/tmp/tmpabc"]} ∪ dirs home).
  { apply elem_of_union. right. unfold home. simpl.
    apply elem_of_singleton. reflexivity. }
  assert (Htmp : "/tmp/tmpabc" ∈ {["/tmp/tmpabc"]} ∪ dirs home).
  { apply elem_of_union. left. apply elem_of_singleton. reflexivity. }
  split.
  - destruct (tmp_restores_cwd_on_return (rmtree_unless ∅)
                (rmtree_unless_keeps_cwd ∅) (rmtree_unless_ignoring_returns ∅)
                (rmtree_unless_fails_with_OSError ∅)
                "/tmp/tmpabc" None true (fun fname => ret fname)
                home (mkFS "/tmp/tmpabc" ({["/tmp/tmpabc"]} ∪ dirs home)) "/tmp/tmpabc"
                Hfresh I eq_refl Hhome)
      as (fs' & Hrun & Hcwd & _ & Hteardown).
    exists fs'. split; [exact Hrun|]. split; [exact Hcwd|].
    destruct (rmtree_unless_deletes ∅ "/tmp/tmpabc"
                (mkFS (cwd home) ({["/tmp/tmpabc"]} ∪ dirs home)) Htmp)
      as (fs3 & Hdeleted & Hgone); [apply not_elem_of_empty|].
    destruct (Hteardown eq_refl (Ok tt) fs3 Hdeleted) as [Hsame _].
    rewrite (Hsame eq_refl). exact Hgone.
  - destruct (tmp_restores_cwd_on_return (rmtree_unless {["/tmp/tmpabc"]})
                (rmtree_unless_keeps_cwd {["/tmp/tmpabc"]})
                (rmtree_unless_ignoring_returns {["/tmp/tmpabc"]})
                (rmtree_unless_fails_with_OSError {["/tmp/tmpabc"]})
                "/tmp/tmpabc" None true (fun fname => ret fname)
                home (mkFS "/tmp/tmpabc" ({["/tmp/tmpabc"]} ∪ dirs home)) "/tmp/tmpabc"
                Hfresh I eq_refl Hhome)
      as (fs' & Hrun & Hcwd & _ & Hteardown).
    exists fs'. split; [exact Hrun|]. split; [exact Hcwd|].
    destruct (rmtree_unless_refuses {["/tmp/tmpabc"]} "/tmp/tmpabc"
                (mkFS (cwd home) ({["/tmp/tmpabc"]} ∪ dirs home)))
      as (Hfails & Hkept & Hignored); [apply elem_of_singleton; reflexivity|].
    destruct (rmtree_unless {["/tmp/tmpabc"]} "/tmp/tmpabc" false
                (mkFS (cwd home) ({["/tmp/tmpabc"]} ∪ dirs home)))
      as [r fs3] eqn:Hcall.
    simpl in Hfails, Hkept. subst fs3.
    destruct (Hteardown eq_refl r _ Hcall) as [_ Hretry].
    assert (Hfinal : fs' = mkFS (cwd home) ({["/tmp/tmpabc"]} ∪ dirs home))
      by (rewrite (Hretry Hfails); exact Hignored).
    rewrite Hfinal. exact Htmp.
Defined.

Lemma tmp_body_raises_skips_cleanup_witness :
  tmp (rmtree_unless ∅) (A := unit) "/tmp/tmpabc" None true
    (fun _ => raise (Raised "AssertionError")) home
  = (Raise (Raised "AssertionError"),
     mkFS "/tmp/tmpabc" ({["/tmp/tmpabc"]} ∪ {["/home/user"]})).
Proof.
  apply (tmp_body_raises_skips_cleanup (rmtree_unless ∅) "/tmp/tmpabc" None true
           (fun _ => raise (Raised "AssertionError"))
           home).
  - intros H. simpl in H. apply elem_of_singleton in H. discriminate H.
  - exact I.
  - reflexivity.
Defined.

Lemma capture_streams_captures_print_witness :
  exists out,
    (out ∉ dom (written console)) /\
    fst (capture_streams
           (fun streams => bind (print "output of foo") (fun _ => ret (fst streams)))
           console) = Ok out /\
    getvalue out
      (snd (capture_streams
              (fun streams => bind (print "output of foo") (fun _ => ret (fst streams)))
              console))
      = "output of foo" +:+ nl /\
    written
      (snd (capture_streams
              (fun streams => bind (print "output of foo") (fun _ => ret (fst streams)))
              console))
      !! sys_stdout console
      = written console !! sys_stdout console.
Proof.
  apply (capture_streams_captures_print "output of foo" console).
  exists "". reflexivity.
Defined.

End TestUtilsRuns.

(** * More properties of [run_everest] *)

Section ScriptOrderFacts.
Import Script.

Variable collaborator :
  Collaborator -> StatusRecord * bool -> option Exn * (StatusRecord * bool).

Lemma is_launch_is_call (events : list Event) :
  existsb is_call events = false -> existsb is_launch events = false.
Proof.
  induction events as [|ev events IH]; [reflexivity|]. simpl.
  intros H. apply orb_false_iff in H as [Hev Hrest].
  rewrite (IH Hrest). destruct ev as [| | | |[]]; simpl in *; congruence.
Qed.

Lemma log_forward_model_logs (jobs : list string) (w : World) :
  exists r logged,
    log_forward_model jobs w = (r, mkWorld (record w) (alive w) (trace w ++ logged)) /\
    existsb is_call logged = false.
Proof.
  revert w. induction jobs as [|fm_job jobs IH]; intros w; simpl.
  - exists (Ok tt), []. rewrite app_nil_r. destruct w. split; reflexivity.
  - destruct (first_word fm_job) as [job_name|].
    + unfold bind, logger_info, emit. simpl.
      destruct (IH (mkWorld (record w) (alive w)
                  (trace w ++ [Logged INFO ("Everest forward model contains job " +:+ job_name)])))
        as (r & logged & Hrun & Hcalls).
      exists r, (Logged INFO ("Everest forward model contains job " +:+ job_name) :: logged).
      rewrite Hrun. simpl. rewrite <- app_assoc. split; [reflexivity | exact Hcalls].
    + exists (Raise (IndexError "list index out of range")), [].
      unfold raise. rewrite app_nil_r. destruct w. split; reflexivity.
Qed.

Lemma call_result (c : Collaborator) (w : World) :
  exists r w', call collaborator c w = (r, w') /\ trace w' = trace w ++ [Called c].
Proof.
  unfold call. destruct (collaborator c (record w, alive w)) as [outcome [r a]].
  eexists _, _. split; reflexivity.
Qed.

(** The [with open_storage] block: the server is started first and the
    storage is closed last, whatever happens in between. *)
Lemma storage_block_events (options : Options) (w : World) :
  exists inner,
    trace (snd (finally (_run_everest collaborator options)
                  (call collaborator close_storage) w))
    = trace w ++ Called start_server :: inner ++ [Called close_storage] /\
    existsb is_launch inner = false.
Proof.
  unfold finally, _run_everest, bind, print, emit, call. simpl.
  repeat match goal with
  | |- context [collaborator ?c ?st] =>
      let o := fresh "o" in let r := fresh "r" in let a := fresh "a" in
      destruct (collaborator c st) as [[o|] [r a]]; simpl
  end;
  rewrite <- ?app_assoc; simpl;
  first [ exists []; split; reflexivity
        | eexists [_]; split; reflexivity
        | eexists [_; _]; split; reflexivity
        | eexists [_; _; _]; split; reflexivity
        | eexists [_; _; _; _]; split; reflexivity
        | eexists [_; _; _; _; _]; split; reflexivity ].
Qed.

Lemma bind_step {A B} (m : M A) (k : A -> M B) (w : World) :
  bind m k w = match m w with
               | (Ok a, w') => k a w'
               | (Raise e, w') => (Raise e, w')
               end.
Proof. reflexivity. Qed.

Lemma no_launch_vacuous (events : list Event) (P : Prop) :
  existsb is_launch events = false -> existsb is_launch events = true -> P.
Proof. congruence. Qed.

Lemma launch_events (options : Options) (w : World) :
  exists events,
    trace (snd (launch collaborator options w)) = trace w ++ events /\
    (existsb is_launch events = true ->
     exists before inner,
       events = before ++ Called start_server :: inner ++ [Called close_storage] /\
       existsb is_launch before = false /\
       existsb is_launch inner = false).
Proof.
  unfold launch.
  set (text := "Running everest with config info" +:+ nl +:+ " " +:+ to_dict (config options)).
  rewrite bind_step. unfold logger_info at 1, emit at 1. cbv iota beta.
  set (w0 := mkWorld (record w) (alive w) (trace w ++ [Logged INFO text])).
  rewrite bind_step.
  destruct (log_forward_model_logs (forward_model (config options)) w0)
    as (r & logged & Hlog & Hcalls).
  rewrite Hlog. pose proof (is_launch_is_call logged Hcalls) as Hlogged.
  destruct r as [[]|e]; cycle 1.
  { exists ([Logged INFO text] ++ logged). simpl. rewrite <- app_assoc.
    split; [reflexivity|]. apply no_launch_vacuous. exact Hlogged. }
  set (w1 := mkWorld (record w0) (alive w0) (trace w0 ++ logged)).
  rewrite bind_step.
  destruct (call_result (generate_ert_config (debug options)) w1) as (r2 & w2 & Hc2 & Ht2).
  rewrite Hc2. destruct r2 as [[]|e]; cycle 1.
  { exists ([Logged INFO text] ++ logged ++ [Called (generate_ert_config (debug options))]).
    simpl. rewrite Ht2. simpl. rewrite <- !app_assoc.
    split; [reflexivity|]. apply no_launch_vacuous.
    rewrite existsb_app, Hlogged. reflexivity. }
  rewrite bind_step.
  destruct (call_result (makedirs_if_needed (output_dir (config options))) w2)
    as (r3 & w3 & Hc3 & Ht3).
  rewrite Hc3. destruct r3 as [[]|e]; cycle 1.
  { exists ([Logged INFO text] ++ logged ++
            [Called (generate_ert_config (debug options));
             Called (makedirs_if_needed (output_dir (config options)))]).
    simpl. rewrite Ht3, Ht2. simpl. rewrite <- !app_assoc.
    split; [reflexivity|]. apply no_launch_vacuous.
    rewrite existsb_app, Hlogged. reflexivity. }
  rewrite bind_step.
  destruct (call_result open_storage w3) as (r4 & w4 & Hc4 & Ht4).
  rewrite Hc4. destruct r4 as [[]|e]; cycle 1.
  { exists ([Logged INFO text] ++ logged ++
            [Called (generate_ert_config (debug options));
             Called (makedirs_if_needed (output_dir (config options)));
             Called open_storage]).
    simpl. rewrite Ht4, Ht3, Ht2. simpl. rewrite <- !app_assoc.
    split; [reflexivity|]. apply no_launch_vacuous.
    rewrite existsb_app, Hlogged. reflexivity. }
  destruct (storage_block_events options w4) as (inner & Htrace & Hinner).
  set (before := [Logged INFO text] ++ logged ++
                 [Called (generate_ert_config (debug options));
                  Called (makedirs_if_needed (output_dir (config options)));
                  Called open_storage]).
  exists (before ++ Called start_server :: inner ++ [Called close_storage]).
  split.
  - rewrite Htrace, Ht4, Ht3, Ht2. subst before. simpl.
    rewrite <- !app_assoc. reflexivity.
  - intros _. exists before, inner. split; [reflexivity|]. split; [|exact Hinner].
    subst before. simpl. rewrite existsb_app, Hlogged. reflexivity.
Qed.

(** X18: in the part of [run_everest] that prepares and follows a run, the
    server is started at most once, and once it has been started the
    storage is closed before the part is left, also when starting, waiting
    or monitoring raises. *)
Theorem launch_starts_once_and_closes_storage (options : Options) (w : World) :
  exists events,
    trace (snd (launch collaborator options w)) = trace w ++ events /\
    (existsb is_launch events = true ->
     exists before inner,
       events = before ++ Called start_server :: inner ++ [Called close_storage] /\
       existsb is_launch before = false /\
       existsb is_launch inner = false).
Proof. exact (launch_events options w). Qed.

Lemma report_outcome_events (w : World) :
  exists events,
    trace (snd (report_outcome w)) = trace w ++ events /\
    existsb is_launch events = false.
Proof.
  unfold report_outcome, bind, everserver_status, logger_error, logger_info,
    print, emit, raise, ret. simpl.
  destruct (is_failed (status (record w))); simpl.
  - eexists. rewrite <- app_assoc. split; reflexivity.
  - destruct (message (record w)); simpl.
    + eexists. rewrite <- !app_assoc. split; reflexivity.
    + eexists. split; reflexivity.
Qed.

(** X19: [run_everest] starts a server only when [--kill] is not given,
    no server answers, and the recorded status is [never_run] or
    [--new-run] is given; in every other case no [start_server] call is
    among the events of the invocation. *)
Theorem run_starts_server_only_when_fresh (options : Options) (w : World) :
  exists events,
    trace (snd (run_everest collaborator options w)) = trace w ++ events /\
    (existsb is_launch events = true ->
     kill options = false /\ alive w = false /\
     (status (record w) = never_run \/ new_run options = true)).
Proof.
  unfold run_everest. destruct (kill options) eqn:Hkill.
  { unfold _kill_everest, bind, print, emit. simpl.
    eexists. rewrite <- !app_assoc. split; [reflexivity|]. discriminate. }
  rewrite bind_step. unfold everserver_status at 1. cbv iota beta.
  rewrite bind_step. unfold server_is_running at 1. cbv iota beta.
  cbn [alive record trace].
  destruct (alive w) eqn:Halive.
  { unfold print, emit. simpl.
    eexists. rewrite <- !app_assoc. split; [reflexivity|]. discriminate. }
  destruct (is_never_run (status (record w)) || new_run options) eqn:Hfresh.
  - assert (Hcond : status (record w) = never_run \/ new_run options = true).
    { apply orb_true_iff in Hfresh as [H | H]; [left | right; exact H].
      destruct (status (record w)); simpl in H; congruence. }
    rewrite bind_step.
    match goal with |- context [launch collaborator options ?w0] =>
      destruct (launch_events options w0) as (ev1 & Ht1 & _);
      destruct (launch collaborator options w0) as [[[]|e] w1] eqn:Hlaunch
    end; simpl in Ht1.
    + destruct (report_outcome_events w1) as (ev2 & Ht2 & _).
      exists ([StatusQueried; LivenessProbed] ++ ev1 ++ ev2).
      rewrite Ht2, Ht1. rewrite <- !app_assoc. split; [reflexivity | auto].
    + exists ([StatusQueried; LivenessProbed] ++ ev1).
      simpl. rewrite Ht1. rewrite <- !app_assoc. split; [reflexivity | auto].
  - match goal with |- context [call collaborator report_on_previous_run ?w0] =>
      destruct (call_result report_on_previous_run w0) as (r & w' & Hc & Ht)
    end.
    rewrite Hc. simpl. rewrite Ht. simpl.
    eexists. rewrite <- !app_assoc. split; [reflexivity|]. discriminate.
Qed.

Section Cooperative.

Hypothesis never_raises : forall c st, fst (collaborator c st) = None.

Lemma call_returns (c : Collaborator) (w : World) :
  exists w', call collaborator c w = (Ok tt, w').
Proof.
  unfold call. pose proof (never_raises c (record w, alive w)) as H.
  destruct (collaborator c (record w, alive w)) as [outcome [r a]].
  simpl in H. subst outcome. eexists. reflexivity.
Qed.

Lemma log_forward_model_returns (jobs : list string) (w : World) :
  Forall (fun fm_job => first_word fm_job <> None) jobs ->
  exists w', log_forward_model jobs w = (Ok tt, w').
Proof.
  intros Hjobs. revert w. induction Hjobs as [|fm_job jobs Hword _ IH]; intros w; simpl.
  - eexists. reflexivity.
  - destruct (first_word fm_job) as [job_name|]; [|congruence].
    unfold bind, logger_info, emit. simpl. apply IH.
Qed.

Lemma _run_everest_returns (options : Options) (w : World) :
  exists w', _run_everest collaborator options w = (Ok tt, w').
Proof.
  unfold _run_everest.
  rewrite bind_step. destruct (call_returns start_server w) as [w1 ->].
  rewrite bind_step. unfold print at 1, emit at 1. cbv iota beta.
  rewrite bind_step.
  match goal with |- context [call collaborator (wait_for_server 600) ?w0] =>
    destruct (call_returns (wait_for_server 600) w0) as [w2 ->] end.
  rewrite bind_step. unfold print at 1, emit at 1. cbv iota beta.
  rewrite bind_step.
  match goal with |- context [call collaborator (run_detached_monitor ?b) ?w0] =>
    destruct (call_returns (run_detached_monitor b) w0) as [w3 ->] end.
  apply call_returns.
Qed.

Lemma launch_returns (options : Options) (w : World) :
  Forall (fun fm_job => first_word fm_job <> None) (forward_model (config options)) ->
  exists w', launch collaborator options w = (Ok tt, w').
Proof.
  intros Hjobs. unfold launch.
  rewrite bind_step. unfold logger_info at 1, emit at 1. cbv iota beta.
  rewrite bind_step.
  match goal with |- context [log_forward_model ?jobs ?w0] =>
    destruct (log_forward_model_returns jobs w0 Hjobs) as [w1 ->] end.
  rewrite bind_step.
  destruct (call_returns (generate_ert_config (debug options)) w1) as [w2 ->].
  rewrite bind_step.
  destruct (call_returns (makedirs_if_needed (output_dir (config options))) w2) as [w3 ->].
  rewrite bind_step.
  destruct (call_returns open_storage w3) as [w4 ->].
  unfold finally.
  destruct (_run_everest_returns options w4) as [w5 ->].
  destruct (call_returns close_storage w5) as [w6 ->].
  eexists. reflexivity.
Qed.

(** X20: when no collaborator raises and no entry of [forward_model] is
    blank, a fresh run always gets as far as reading the status again, and
    [run_everest] returns normally exactly when the status read then is
    not [failed]; otherwise it raises SystemExit with the stored message. *)
Theorem fresh_run_returns_unless_failed (options : Options) (w : World) :
  kill options = false ->
  alive w = false ->
  is_never_run (status (record w)) || new_run options = true ->
  Forall (fun fm_job => first_word fm_job <> None) (forward_model (config options)) ->
  exists w1,
    launch collaborator options
      (mkWorld (record w) (alive w) (trace w ++ [StatusQueried; LivenessProbed]))
      = (Ok tt, w1) /\
    (status (record w1) <> failed ->
       fst (run_everest collaborator options w) = Ok tt) /\
    (status (record w1) = failed ->
       fst (run_everest collaborator options w)
         = Raise (SystemExit (message (record w1)))).
Proof.
  intros Hkill Halive Hfresh Hjobs.
  destruct (launch_returns options
              (mkWorld (record w) (alive w) (trace w ++ [StatusQueried; LivenessProbed]))
              Hjobs) as [w1 Hlaunch].
  exists w1. split; [exact Hlaunch|].
  rewrite (launch_after_probes collaborator options w Hkill Halive Hfresh).
  rewrite bind_step, Hlaunch.
  unfold report_outcome, bind, everserver_status, logger_error, logger_info,
    print, emit, raise, ret. simpl.
  split.
  - intros Hok. destruct (status (record w1)); try congruence; simpl;
      destruct (message (record w1)); reflexivity.
  - intros ->. reflexivity.
Qed.

End Cooperative.

End ScriptOrderFacts.

Section ScriptOrderRuns.
Import Script.

Lemma launch_starts_once_and_closes_storage_witness :
  exists before inner,
    trace (snd (launch finishing_job plain_run idle_world))
    = before ++ Called start_server :: inner ++ [Called close_storage].
Proof.
  destruct (launch_starts_once_and_closes_storage finishing_job plain_run idle_world)
    as (events & Htrace & Hlaunched).
  change (trace idle_world ++ events) with events in Htrace. subst events.
  destruct (Hlaunched eq_refl) as (before & inner & Hevents & _).
  exists before, inner. exact Hevents.
Defined.

Lemma run_starts_server_only_when_fresh_witness :
  existsb is_launch (trace (snd (run_everest finishing_job forced_run busy_world))) = false.
Proof.
  destruct (run_starts_server_only_when_fresh finishing_job forced_run busy_world)
    as (events & Htrace & Honly).
  change (trace busy_world ++ events) with events in Htrace. subst events.
  destruct (existsb is_launch _) eqn:Hlaunched; [|reflexivity].
  destruct (Honly eq_refl) as (_ & Halive & _). discriminate Halive.
Defined.

Lemma fresh_run_returns_unless_failed_witness :
  fst (run_everest finishing_job plain_run idle_world) = Ok tt /\
  fst (run_everest failing_job plain_run idle_world)
    = Raise (SystemExit (Some "simulation crashed")).
Proof.
  assert (Hcooperative : forall final c st, fst (job_ends_with final c st) = None)
    by (intros final [] st; reflexivity).
  assert (Hjobs : Forall (fun fm_job => first_word fm_job <> None)
                    (forward_model (config plain_run)))
    by (repeat constructor; discriminate).
  split.
  - destruct (fresh_run_returns_unless_failed finishing_job (Hcooperative _)
                plain_run idle_world eq_refl eq_refl eq_refl Hjobs)
      as (w1 & Hlaunch & Hreturns & _).
    apply Hreturns. vm_compute in Hlaunch. injection Hlaunch as <-. discriminate.
  - destruct (fresh_run_returns_unless_failed failing_job (Hcooperative _)
                plain_run idle_world eq_refl eq_refl eq_refl Hjobs)
      as (w1 & Hlaunch & _ & Hraises).
    rewrite Hraises; vm_compute in Hlaunch; injection Hlaunch as <-; reflexivity.
Defined.

End ScriptOrderRuns.

(** * The validated CVaR model *)

Section CVaRModelFacts.
Import CVaR.

Lemma validated_nreals (v : PyVal) (n : option Z) :
  validate_number_of_realizations v = inr n ->
  (is_not_None v = true <-> n <> None).
Proof.
  destruct v as [|z|q]; simpl.
  - intros [= <-]. split; congruence.
  - intros [= <-]. split; congruence.
  - destruct (is_integral q); [|discriminate]. intros [= <-]. split; congruence.
Qed.

Lemma validated_percentile (v : PyVal) (p : option Q) :
  validate_percentile v = inr p ->
  (is_not_None v = true <-> p <> None) /\
  (forall q, p = Some q -> (0 <= q <= 1)%Q).
Proof.
  assert (Hcheck : forall q0,
    (if negb (Qle_bool 0 q0) then inl (greater_than_equal 0)
     else if negb (Qle_bool q0 1) then inl (less_than_equal 1)
     else inr (Some q0)) = (inr p : ErrorType + option Q) ->
    p = Some q0 /\ (0 <= q0 <= 1)%Q).
  { intros q0. destruct (Qle_bool 0 q0) eqn:H0; simpl; [|discriminate].
    destruct (Qle_bool q0 1) eqn:H1; simpl; [|discriminate].
    intros [= <-]. split; [reflexivity|]. split; apply Qle_bool_iff; assumption. }
  destruct v as [|z|q]; simpl.
  - intros [= <-]. split; [split; congruence | discriminate].
  - intros H. apply Hcheck in H as [-> Hrange].
    split; [split; congruence | intros q0 [= <-]; exact Hrange].
  - intros H. apply Hcheck in H as [-> Hrange].
    split; [split; congruence | intros q0 [= <-]; exact Hrange].
Qed.

(** X21: every model that validation returns has exactly one of
    [number_of_realizations] and [percentile] set, a percentile, if that is
    the one, within [0,1], and comes from a section without unknown keys. *)
Theorem validated_cvar_has_exactly_one_field (values : gmap string PyVal)
    (cfg : CVaRConfig) :
  model_validate values = inr cfg ->
  ((exists n, number_of_realizations cfg = Some n /\ percentile cfg = None) \/
   (number_of_realizations cfg = None /\
    exists q, percentile cfg = Some q /\ (0 <= q <= 1)%Q)) /\
  (forall k, is_Some (values !! k) -> k ∈ field_names).
Proof.
  unfold model_validate.
  destruct (mutex_outcome values) as [[_ Hm] | [Hx Hm]]; rewrite Hm; [discriminate|].
  destruct (validate_number_of_realizations _) as [e1|n] eqn:Hn; [discriminate|].
  destruct (validate_percentile _) as [e2|p] eqn:Hp;
    [destruct (extra_keys values); discriminate|].
  destruct (extra_keys values) as [|k ks] eqn:Hextra; [|discriminate].
  intros [= <-]. simpl.
  apply validated_nreals in Hn. apply validated_percentile in Hp as [Hp Hrange].
  split.
  - unfold exactly_one in Hx. rewrite !not_set_None, !is_set_not_None in Hx.
    destruct Hx as [[Hset Hunset] | [Hunset Hset]].
    + left. apply Hn in Hset. destruct n as [z|]; [|congruence].
      exists z. split; [reflexivity|].
      destruct p as [q|]; [|reflexivity].
      assert (is_not_None (dict_get values "percentile") = true)
        by (apply Hp; discriminate).
      congruence.
    + right. apply Hp in Hset. destruct p as [q|]; [|congruence].
      split.
      * destruct n as [z|]; [|reflexivity].
        assert (is_not_None (dict_get values "number_of_realizations") = true)
          by (apply Hn; discriminate).
        congruence.
      * exists q. split; [reflexivity | apply Hrange; reflexivity].
  - intros k Hk. destruct (decide (k ∈ field_names)) as [Hin | Hout]; [exact Hin|].
    exfalso. assert (Hin : k ∈ extra_keys values) by (apply extra_keys_spec; auto).
    rewrite Hextra in Hin. apply elem_of_nil in Hin. exact Hin.
Qed.

Lemma validated_cvar_has_exactly_one_field_witness :
  (exists n, Some 3%Z = Some n /\ (None : option Q) = None) \/
  ((Some 3%Z : option Z) = None /\ exists q, (None : option Q) = Some q /\ (0 <= q <= 1)%Q).
Proof.
  apply (validated_cvar_has_exactly_one_field only_nreals (mkCVaRConfig (Some 3) None)).
  reflexivity.
Defined.

End CVaRModelFacts.
